(** * FResQ driver dashboard: route geometry, stop markers, order urgency

    A shallow embedding of the logic of the React front end:
    - [App] (the dashboard component): [handleFetchLive],
      [handleOptimize], the buttons, [createLocationLookup],
      [getOrderStyle] and the order cards;
    - [MapComponent]: the route effect with [fetchRoadShape], the map
      centre, the stop-marker layer with [createPin], and [RouteArrows].

    Component state ([useState] cells) is a record and every handler is a
    state transformer.  Code inside [try]/[catch] runs in a small
    state-and-exception monad, so that the state reached at the point of a
    throw is the state the handler continues from.  JS objects used as
    dictionaries are finite maps of their own properties, with string
    keys; reading a name off such an object ([MapComponent.read]) gives
    the own property, or the member the object inherits from
    [Object.prototype], or [undefined] ([None] here).  Coordinates are
    only ever copied by the code, never computed with; a number is kept as
    a rational, and a coordinate read off an object that has no such
    property is [Undefined]. *)

From Stdlib Require Import ZArith QArith Lia.
From stdpp Require Import gmap strings list fin_maps sorting.

Local Open Scope string_scope.

(** ** Coordinates *)

(** A coordinate as the code reads it: a number, or [undefined]. *)
Inductive Num :=
| Undefined
| Number (q : Q).

Coercion Number : Q >-> Num.
Bind Scope Q_scope with Num.

(** Coordinates are written as decimal literals; pairs and lists of them
    get their type from the context they stand in. *)
#[local] Arguments pair {A B}%_type_scope & _ _.
#[local] Arguments cons {A}%_type_scope & _ _.

(** ** A state-and-exception monad for handler bodies *)

Module Js.

(** A computation over component state [S]: [None] is a thrown
    exception; the state is kept in both cases. *)
Definition M (S A : Type) : Type := S -> option A * S.

Definition ret {S A} (a : A) : M S A := fun s => (Some a, s).

Definition bind {S A B} (m : M S A) (k : A -> M S B) : M S B :=
  fun s => match m s with
           | (Some a, s') => k a s'
           | (None, s') => (None, s')
           end.

Definition throw {S A} : M S A := fun s => (None, s).

(** A [setX(...)] call of a state hook. *)
Definition modify {S} (f : S -> S) : M S unit := fun s => (Some tt, f s).

(** [try { body } catch (e) { handler }] *)
Definition tryCatch {S A} (body handler : M S A) : M S A :=
  fun s => match body s with
           | (Some a, s') => (Some a, s')
           | (None, s') => handler s'
           end.

(** Reading a property off a value that may be [null]/[undefined]:
    a [TypeError] when it is. *)
Definition deref {S A} (o : option A) : M S A :=
  match o with Some a => ret a | None => throw end.

Definition exec {S A} (m : M S A) (s : S) : S := snd (m s).

(** What [await axios.get(...)] settles to.  axios rejects on a network
    error and on every status outside 2xx. *)
Inductive AxiosResult (A : Type) : Type :=
| Rejected : AxiosResult A
| Resolved (data : A) : AxiosResult A.
Arguments Rejected {A}.
Arguments Resolved {A} data.

Definition await {S A} (r : AxiosResult A) : M S A :=
  match r with Rejected => throw | Resolved d => ret d end.

End Js.

Notation "x <- m ;; k" := (Js.bind m (fun x => k))
  (at level 100, m at next level, right associativity).
Notation "m ;;; k" := (Js.bind m (fun _ => k))
  (at level 100, right associativity).

(** ** Shared data shapes *)

(** A location as the code reads it: the [lat] and the [lon] of the
    object. *)
Record Location := { lat : Num; lon : Num }.

Record PickupWindow := { start : Z; end_ : Z }.

(** [id] is the order id in the string form [String(order.id)] that the
    lookup keys are built from. *)
Record Order := {
  id : string;
  details : string;
  ngo_name : string;
  pickup_location : Location;
  delivery_location : Location;
  pickup_window : option PickupWindow
}.

Record Vehicle := {
  vehicle_id : string;
  capacity : Z;
  start_location : Location
}.

Record Stop := { location_id : string; type : string }.

(** ** The dashboard component *)

Module App.

Inductive Distance :=
| DistanceNumber (n : Q)
| DistanceText (s : string).

Record State := {
  vehicle : option Vehicle;
  orders : list Order;
  route : option (list Stop);
  distance : Distance;
  loading : bool;
  error : option string;
  darkMode : bool
}.

Definition initial : State :=
  {| vehicle := None; orders := []; route := None;
     distance := DistanceNumber 0; loading := false; error := None;
     darkMode := true |}.

Definition setVehicle (v : option Vehicle) (s : State) : State :=
  {| vehicle := v; orders := orders s; route := route s;
     distance := distance s; loading := loading s; error := error s;
     darkMode := darkMode s |}.
Definition setOrders (o : list Order) (s : State) : State :=
  {| vehicle := vehicle s; orders := o; route := route s;
     distance := distance s; loading := loading s; error := error s;
     darkMode := darkMode s |}.
Definition setRoute (r : option (list Stop)) (s : State) : State :=
  {| vehicle := vehicle s; orders := orders s; route := r;
     distance := distance s; loading := loading s; error := error s;
     darkMode := darkMode s |}.
Definition setLoading (b : bool) (s : State) : State :=
  {| vehicle := vehicle s; orders := orders s; route := route s;
     distance := distance s; loading := b; error := error s;
     darkMode := darkMode s |}.
Definition setError (e : option string) (s : State) : State :=
  {| vehicle := vehicle s; orders := orders s; route := route s;
     distance := distance s; loading := loading s; error := e;
     darkMode := darkMode s |}.

Definition myVehicle : Vehicle :=
  {| vehicle_id := "Driver_1"; capacity := 100;
     start_location := {| lat := 25.1825; lon := 75.8236 |} |}.

(** The comparator [(a, b) => a.pickup_window.end - b.pickup_window.end];
    it throws when either order has no [pickup_window]. *)
Definition compareOrders (a b : Order) : Js.M State Z :=
  wa <- Js.deref (pickup_window a) ;;
  wb <- Js.deref (pickup_window b) ;;
  Js.ret (end_ wa - end_ wb)%Z.

(** [Array.prototype.sort] is stable; it is modelled by a stable
    insertion sort that calls the comparator.  On one element or none the
    comparator is never called; on two or more every element is compared
    at least once. *)
Fixpoint insertOrder (x : Order) (l : list Order) : Js.M State (list Order) :=
  match l with
  | [] => Js.ret [x]
  | y :: l' =>
      c <- compareOrders x y ;;
      if (c <=? 0)%Z then Js.ret (x :: y :: l')
      else (r <- insertOrder x l' ;; Js.ret (y :: r))
  end.

Fixpoint sortOrders (l : list Order) : Js.M State (list Order) :=
  match l with
  | [] => Js.ret []
  | x :: l' => s <- sortOrders l' ;; insertOrder x s
  end.

(** The body of the answer to the order request, as far as the code
    tells bodies apart: [null] or [undefined]; a value that is not an
    array (a string, a number, an object), of which the code only asks
    whether its [length] is [0]; an array of orders. *)
Inductive Body :=
| NullBody
| OtherBody (lengthIsZero : bool)
| OrdersBody (orders : list Order).

(** [liveOrders.length === 0]; reading [length] off [null] raises. *)
Definition lengthIsZero (liveOrders : Body) : Js.M State bool :=
  match liveOrders with
  | NullBody => Js.throw
  | OtherBody zero => Js.ret zero
  | OrdersBody l => Js.ret (length l =? 0)%nat
  end.

(** [liveOrders.sort(...)]; only an array has [sort], calling it on
    anything else raises. *)
Definition sortBody (liveOrders : Body) : Js.M State (list Order) :=
  match liveOrders with
  | OrdersBody l => sortOrders l
  | NullBody | OtherBody _ => Js.throw
  end.

Definition handleFetchLive_try (response : Js.AxiosResult Body)
  : Js.M State unit :=
  Js.modify (setVehicle (Some myVehicle)) ;;;
  liveOrders <- Js.await response ;;
  empty <- lengthIsZero liveOrders ;;
  if empty then
    Js.modify (setError
      (Some "No active orders found. Go to /customer to create one!")) ;;;
    Js.modify (setOrders [])
  else
    sortedOrders <- sortBody liveOrders ;;
    Js.modify (setOrders sortedOrders).

Definition handleFetchLive (response : Js.AxiosResult Body)
  : Js.M State unit :=
  Js.modify (setLoading true) ;;;
  Js.modify (setRoute None) ;;;
  Js.modify (setError None) ;;;
  Js.tryCatch
    (handleFetchLive_try response)
    (Js.modify (setError (Some "Failed to fetch orders. Is backend running?"))) ;;;
  Js.modify (setLoading false).

(** The callback of [orders.forEach] in [createLocationLookup]. *)
Definition addOrder (lookup : gmap string Location) (order : Order)
  : gmap string Location :=
  let strId := id order in
  <[strId +:+ "_delivery" := delivery_location order]>
    (<[strId +:+ "_pickup" := pickup_location order]> lookup).

(** [createLocationLookup], over the current [vehicle] and [orders]. *)
Definition createLocationLookup (vehicle : option Vehicle) (orders : list Order)
  : gmap string Location :=
  let lookup : gmap string Location := ∅ in
  let lookup :=
    match vehicle with
    | Some v =>
        <["DEPOT_END" := start_location v]>
          (<["DEPOT_START" := start_location v]>
             (<["DEPOT" := start_location v]> lookup))
    | None => lookup
    end in
  foldl addOrder lookup orders.

Record OrderStyle := {
  borderLeft : string;
  background : string;
  color : string;
  animation : option string
}.

Inductive UrgencyTier := CRITICAL | HIGH | NORMAL.

(** The three style objects [getOrderStyle] returns, by the tier its
    comments name them after. *)
Definition tierStyle (darkMode : bool) (t : UrgencyTier) : OrderStyle :=
  match t with
  | CRITICAL =>
      {| borderLeft := "6px solid #e74c3c";
         background := if darkMode then "#342222" else "#fce4e4";
         color := if darkMode then "#ecf0f1" else "#2c3e50";
         animation := Some "pulse 2s infinite" |}
  | HIGH =>
      {| borderLeft := "6px solid #e67e22";
         background := if darkMode then "#34495e" else "#fff3e0";
         color := if darkMode then "#ecf0f1" else "#2c3e50";
         animation := None |}
  | NORMAL =>
      {| borderLeft := "4px solid #2ecc71";
         background := if darkMode then "#34495e" else "#e8f8f5";
         color := if darkMode then "#ecf0f1" else "#2c3e50";
         animation := None |}
  end.

Definition getOrderStyle (darkMode : bool) (minsRemaining : Z) : OrderStyle :=
  if (minsRemaining <=? 120)%Z then tierStyle darkMode CRITICAL
  else if (minsRemaining <=? 300)%Z then tierStyle darkMode HIGH
  else tierStyle darkMode NORMAL.

(** One card of the order list: the values the [orders.map] callback
    computes before it builds the markup.  [cardStyle] holds the
    properties [getOrderStyle] contributes to the spread
    [{...styles.card, ...getOrderStyle(minutesLeft)}]; [styles.card] has
    none of them. *)
Record OrderCard := {
  minutesLeft : Z;
  cardStyle : OrderStyle;
  isCritical : bool
}.

Definition orderCard (darkMode : bool) (order : Order) : OrderCard :=
  let minutesLeft :=
    match pickup_window order with
    | Some w => end_ w
    | None => 999%Z
    end in
  {| minutesLeft := minutesLeft;
     cardStyle := getOrderStyle darkMode minutesLeft;
     isCritical := (minutesLeft <=? 120)%Z |}.

(** The title line of a card, [Order #{String(order.id).substring(0,4)}]. *)
Definition orderTitle (order : Order) : string :=
  "Order #" +:+ String.substring 0 4 (id order).

(** The cards of the order list, [orders.map(...)]. *)
Definition orderCards (darkMode : bool) (orders : list Order) : list OrderCard :=
  map (orderCard darkMode) orders.

Definition setDistance (d : Distance) (s : State) : State :=
  {| vehicle := vehicle s; orders := orders s; route := route s;
     distance := d; loading := loading s; error := error s;
     darkMode := darkMode s |}.
Definition setDarkMode (b : bool) (s : State) : State :=
  {| vehicle := vehicle s; orders := orders s; route := route s;
     distance := distance s; loading := loading s; error := error s;
     darkMode := b |}.

(** The body of the optimizer's answer; [opt_route] is its [route]
    field. *)
Record OptimizeData := {
  opt_route : option (list Stop);
  total_distance : Q
}.

Section Optimize.

(** [kmText d] is the text [(d / 1000).toFixed(2)] for a distance [d] in
    metres.  How a double is divided and formatted is taken as given. *)
Variable kmText : Q -> string.

Definition handleOptimize_try (response : Js.AxiosResult (option OptimizeData))
  : Js.M State unit :=
  response_data <- Js.await response ;;
  data <- Js.deref response_data ;;
  Js.modify (setRoute (opt_route data)) ;;;
  Js.modify (setDistance (DistanceText (kmText (total_distance data)))).

Definition handleOptimize (response : Js.AxiosResult (option OptimizeData))
  : Js.M State unit :=
  fun s =>
    if match vehicle s with None => true | Some _ => false end
       || (length (orders s) =? 0)%nat
    then
      Js.modify (setError (Some "No orders to optimize. Fetch live data first.")) s
    else
      (Js.modify (setLoading true) ;;;
       Js.modify (setError None) ;;;
       Js.tryCatch
         (handleOptimize_try response)
         (Js.modify (setError (Some "Optimization failed. Backend error."))) ;;;
       Js.modify (setLoading false)) s.

(** What the user can do: press one of the two buttons (the request its
    handler makes settles with the given response) or the theme toggle. *)
Inductive Event :=
| FetchLive (response : Js.AxiosResult Body)
| Optimize (response : Js.AxiosResult (option OptimizeData))
| ToggleTheme.

(** [onClick] of a button with the given [disabled] attribute. *)
Definition click (disabled : bool) (handler : Js.M State unit) (s : State) : State :=
  if disabled then s else Js.exec handler s.

Definition step (s : State) (e : Event) : State :=
  match e with
  | FetchLive response => click (loading s) (handleFetchLive response) s
  | Optimize response =>
      click (loading s || (length (orders s) =? 0)%nat) (handleOptimize response) s
  | ToggleTheme => setDarkMode (negb (darkMode s)) s
  end.

Definition run (events : list Event) (s : State) : State :=
  foldl step s events.

End Optimize.

End App.

(** ** The map component *)

Module MapComponent.

(** A point of the drawn path, [[lat, lon]]. *)
Definition LatLng : Type := Num * Num.

(** The body of the routing service's answer.  A field the code reads
    and the answer lacks is [None]; a position of the GeoJSON geometry is
    the pair [[lon, lat]]. *)
Record Geometry := { coordinates : option (list (Q * Q)) }.
Record OsrmRoute := { geometry : option Geometry }.
Record OsrmData := { routes : option (list OsrmRoute) }.

(** The [routePath] cell, together with the requests that are in flight:
    each holds the [waypoints] its continuation has captured. *)
Record State := {
  routePath : list LatLng;
  inflight : gmap nat (list Location);
  issued : nat
}.

Definition initial : State :=
  {| routePath := []; inflight := ∅; issued := 0 |}.

Definition setRoutePath (p : list LatLng) (s : State) : State :=
  {| routePath := p; inflight := inflight s; issued := issued s |}.

(** The names every object inherits from [Object.prototype]. *)
Definition objectPrototype : list string :=
  [ "constructor"; "__proto__"; "hasOwnProperty"; "isPrototypeOf";
    "propertyIsEnumerable"; "toLocaleString"; "toString"; "valueOf";
    "__defineGetter__"; "__defineSetter__"; "__lookupGetter__";
    "__lookupSetter__" ].

(** What the code sees of an inherited member: a truthy value that has
    neither [lat] nor [lon]. *)
Definition inheritedMember : Location := {| lat := Undefined; lon := Undefined |}.

(** [locations[name]]: the own property; failing that, the inherited
    member when [name] is one of the inherited names; failing that,
    [undefined].  The lookup is made from [{}], so it has the prototype of
    every object. *)
Definition read (locations : gmap string Location) (name : string)
  : option Location :=
  match locations !! name with
  | Some loc => Some loc
  | None =>
      if bool_decide (name ∈ objectPrototype) then Some inheritedMember else None
  end.

(** [route.map(point => locations[point.location_id]).filter(Boolean)],
    then the [unshift] of the depot. *)
Definition extractWaypoints (route : list Stop) (locations : gmap string Location)
  : list Location :=
  let waypoints := omap (fun point => read locations (location_id point)) route in
  match read locations "DEPOT" with
  | Some depot => depot :: waypoints
  | None => waypoints
  end.

(** The pairs [lon,lat] the request URL lists, in order. *)
Definition coordinatesString (waypoints : list Location) : list (Num * Num) :=
  map (fun loc => (lon loc, lat loc)) waypoints.

(** [fetchRoadShape] from the [await] on: the body of its [try]. *)
Definition fetchRoadShape_try (response : Js.AxiosResult (option OsrmData))
  : Js.M State unit :=
  response_data <- Js.await response ;;
  data <- Js.deref response_data ;;
  match routes data with
  | Some (route0 :: _) =>
      g <- Js.deref (geometry route0) ;;
      geoJsonCoords <- Js.deref (coordinates g) ;;
      Js.modify (setRoutePath
        (map (fun coord => (Number (snd coord), Number (fst coord))) geoJsonCoords))
  | Some [] | None => Js.ret tt
  end.

Definition fetchRoadShape (waypoints : list Location)
    (response : Js.AxiosResult (option OsrmData)) : Js.M State unit :=
  Js.tryCatch
    (fetchRoadShape_try response)
    (Js.modify (setRoutePath (map (fun w => (lat w, lon w)) waypoints))).

(** The call [fetchRoadShape()]: the request goes out and the function
    is suspended at its [await]. *)
Definition launch (waypoints : list Location) (s : State) : State :=
  {| routePath := routePath s;
     inflight := <[issued s := waypoints]> (inflight s);
     issued := S (issued s) |}.

(** The route effect, run with the current [route] and [locations]. *)
Definition routeEffect (route : option (list Stop))
    (locations : gmap string Location) (s : State) : State :=
  match route with
  | None | Some [] => setRoutePath [] s
  | Some route =>
      let waypoints := extractWaypoints route locations in
      if (length waypoints <? 2)%nat then s
      else launch waypoints s
  end.

(** The request [request] settles with [response]: its continuation
    runs to the end. *)
Definition settle (request : nat) (response : Js.AxiosResult (option OsrmData))
    (s : State) : State :=
  match inflight s !! request with
  | Some waypoints =>
      Js.exec (fetchRoadShape waypoints response)
        {| routePath := routePath s;
           inflight := delete request (inflight s);
           issued := issued s |}
  | None => s
  end.

(** The event loop: the effect runs, or a request settles. *)
Inductive Event :=
| Render (route : option (list Stop)) (locations : gmap string Location)
| Settle (request : nat) (response : Js.AxiosResult (option OsrmData)).

Definition step (s : State) (e : Event) : State :=
  match e with
  | Render route locations => routeEffect route locations s
  | Settle request response => settle request response s
  end.

Definition run (events : list Event) (s : State) : State :=
  foldl step s events.

(** The stop-marker layer. *)
Record Pin := { pin_color : string; pin_icon : string }.

Definition createPin (type : string) : Pin :=
  let color := "#3b82f6" in
  let icon := "fas fa-car" in
  let '(color, icon) :=
    if decide (type = "pickup") then ("#2ecc71", "fas fa-box") else (color, icon) in
  let '(color, icon) :=
    if decide (type = "delivery") then ("#e74c3c", "fas fa-flag-checkered")
    else (color, icon) in
  {| pin_color := color; pin_icon := icon |}.

Record Marker := { key : nat; position : LatLng; icon : Pin }.

(** The callback of [route.map]: [None] is the [null] it returns. *)
Definition stopMarker (locations : gmap string Location) (idx : nat) (point : Stop)
  : option Marker :=
  match read locations (location_id point) with
  | None => None
  | Some loc =>
      if decide (type point = "start") then None
      else Some {| key := idx; position := (lat loc, lon loc);
                   icon := createPin (type point) |}
  end.

(** [route && route.map(...)]: the markers React mounts are the entries
    that are not [null]. *)
Definition stopMarkers (route : option (list Stop))
    (locations : gmap string Location) : list Marker :=
  match route with
  | None => []
  | Some route => omap (fun m => m) (imap (stopMarker locations) route)
  end.

(** The centre of the map. *)
Definition defaultCenter : LatLng := (25.1825, 75.8236)%Q.

Definition center (routePath : list LatLng) : LatLng :=
  match routePath with
  | p :: _ => p
  | [] => defaultCenter
  end.

(** The Leaflet map, as far as [RouteArrows] uses it: its layers, by the
    stamp each layer object gets when it is made. *)
Record LeafletMap := {
  layers : gmap nat (list LatLng);
  stamp : nat
}.

(** [L.polylineDecorator(positions, ...)] followed by [addTo(map)]. *)
Definition addDecorator (positions : list LatLng) (m : LeafletMap)
  : LeafletMap * nat :=
  ({| layers := <[stamp m := positions]> (layers m); stamp := S (stamp m) |},
   stamp m).

Definition removeLayer (layer : nat) (m : LeafletMap) : LeafletMap :=
  {| layers := delete layer (layers m); stamp := stamp m |}.

(** The effect of [RouteArrows]: the new map and the decorator its
    cleanup function will remove ([None]: no cleanup was returned). *)
Definition arrowsEffect (positions : option (list LatLng)) (m : LeafletMap)
  : LeafletMap * option nat :=
  match positions with
  | None | Some [] => (m, None)
  | Some positions =>
      let '(m', decorator) := addDecorator positions m in (m', Some decorator)
  end.

Definition arrowsCleanup (cleanup : option nat) (m : LeafletMap) : LeafletMap :=
  match cleanup with
  | Some decorator => removeLayer decorator m
  | None => m
  end.

(** A mounted [RouteArrows]: the map and the pending cleanup. *)
Record Arrows := { arrowsMap : LeafletMap; cleanup : option nat }.

(** React runs the effect when the component mounts and whenever
    [positions] has changed, after the cleanup of the previous run; it
    runs the cleanup when the component unmounts. *)
Inductive Lifecycle :=
| Commit (positions : option (list LatLng))
| Unmount.

Definition arrowsStep (a : Arrows) (e : Lifecycle) : Arrows :=
  match e with
  | Commit positions =>
      let '(m, c) := arrowsEffect positions (arrowsCleanup (cleanup a) (arrowsMap a)) in
      {| arrowsMap := m; cleanup := c |}
  | Unmount =>
      {| arrowsMap := arrowsCleanup (cleanup a) (arrowsMap a); cleanup := None |}
  end.

Definition arrowsRun (events : list Lifecycle) (a : Arrows) : Arrows :=
  foldl arrowsStep a events.

End MapComponent.

(** ** Notions used in the statements *)

(** The stops the marker layer is said to show: with an entry in the
    lookup, and not of type "start". *)
Definition rendersMarker (locations : gmap string Location) (point : Stop) : Prop :=
  is_Some (locations !! location_id point) /\ type point ≠ "start".

#[local] Instance rendersMarker_dec locations point :
  Decision (rendersMarker locations point).
Proof. unfold rendersMarker. apply _. Defined.

(** The stops the marker layer does show: [locations[location_id]] is
    truthy, and the type is not "start". *)
Definition showsMarker (locations : gmap string Location) (point : Stop) : Prop :=
  is_Some (MapComponent.read locations (location_id point)) /\ type point ≠ "start".

#[local] Instance showsMarker_dec locations point :
  Decision (showsMarker locations point).
Proof. unfold showsMarker. apply _. Defined.

(** The [try] block of [handleFetchLive] raises on this response (whether
    it does is independent of the state it starts from). *)
Definition fetchFails (response : Js.AxiosResult App.Body) : Prop :=
  fst (App.handleFetchLive_try response App.initial) = None.

(** The [try] block of [fetchRoadShape] raises on this response. *)
Definition routingRaises (response : Js.AxiosResult (option MapComponent.OsrmData))
  : Prop :=
  fst (MapComponent.fetchRoadShape_try response MapComponent.initial) = None.

(** The responses on which it does: a rejected request, a null body, a
    first route without geometry, a geometry without coordinates. *)
Inductive Raises : Js.AxiosResult (option MapComponent.OsrmData) -> Prop :=
| raises_rejected : Raises Js.Rejected
| raises_null_body : Raises (Js.Resolved None)
| raises_no_geometry d r rest :
    MapComponent.routes d = Some (r :: rest) -> MapComponent.geometry r = None ->
    Raises (Js.Resolved (Some d))
| raises_no_coordinates d r rest g :
    MapComponent.routes d = Some (r :: rest) ->
    MapComponent.geometry r = Some g -> MapComponent.coordinates g = None ->
    Raises (Js.Resolved (Some d)).

(** The straight-line path through the waypoints, and the flipped
    geometry. *)
Definition straightLine (waypoints : list Location) : list MapComponent.LatLng :=
  map (fun w => (lat w, lon w)) waypoints.

Definition flipped (coords : list (Q * Q)) : list MapComponent.LatLng :=
  map (fun coord => (Number (snd coord), Number (fst coord))) coords.

(** Coordinate pairs that are all numbers, as a request lists them. *)
Definition numbers (coords : list (Q * Q)) : list (Num * Num) :=
  map (fun coord => (Number (fst coord), Number (snd coord))) coords.

(** A well-formed answer whose first route has the geometry [coords]. *)
Definition roadAnswer (coords : list (Q * Q)) (rest : list MapComponent.OsrmRoute)
  : Js.AxiosResult (option MapComponent.OsrmData) :=
  Js.Resolved (Some
    {| MapComponent.routes := Some
         ({| MapComponent.geometry :=
               Some {| MapComponent.coordinates := Some coords |} |} :: rest) |}).

(** An answer with status 200 and an empty route list. *)
Definition emptyAnswer : Js.AxiosResult (option MapComponent.OsrmData) :=
  Js.Resolved (Some {| MapComponent.routes := Some [] |}).

(** The event settles the request [request]. *)
Definition settles (request : nat) (e : MapComponent.Event) : bool :=
  match e with
  | MapComponent.Settle n _ => (n =? request)%nat
  | MapComponent.Render _ _ => false
  end.

(** Request numbers in flight are below the number of requests issued. *)
Definition bounded (s : MapComponent.State) : Prop :=
  forall n, is_Some (MapComponent.inflight s !! n) ->
            (n < MapComponent.issued s)%nat.

(** A handler step that reads no state and writes none. *)
Definition pure {S A} (m : Js.M S A) : Prop := exists r, forall s, m s = (r, s).

(** The deadline the orders are sorted by, for an order that has a
    pickup window. *)
Definition deadline (o : Order) : Z :=
  match pickup_window o with Some w => end_ w | None => 0%Z end.

Definition hasWindow (o : Order) : Prop := pickup_window o <> None.

Definition byDeadline (a b : Order) : Prop := (deadline a <= deadline b)%Z.

(** The dashboard after [handleFetchLive]: the vehicle is the driver's,
    the route is gone, loading is off; the orders and the message depend
    on the answer. *)
Definition afterFetch (s : App.State) (ords : list Order) (err : option string)
  : App.State :=
  {| App.vehicle := Some App.myVehicle; App.orders := ords; App.route := None;
     App.distance := App.distance s; App.loading := false; App.error := err;
     App.darkMode := App.darkMode s |}.

(** The run of the route effect sends a request. *)
Definition launches (e : MapComponent.Event) : bool :=
  match e with
  | MapComponent.Render (Some (point :: route)) locations =>
      (2 <=? length (MapComponent.extractWaypoints (point :: route) locations))%nat
  | _ => false
  end.

(** What holds of the dashboard between two user actions. *)
Definition dashboardInvariant (s : App.State) : Prop :=
  App.loading s = false /\
  (App.orders s <> [] -> App.vehicle s = Some App.myVehicle) /\
  (App.route s <> None -> App.orders s <> []) /\
  App.error s <> Some "No orders to optimize. Fetch live data first.".

(** The stamps of the layers on the map are below the next stamp. *)
Definition stamped (m : MapComponent.LeafletMap) : Prop :=
  forall n, is_Some (MapComponent.layers m !! n) -> (n < MapComponent.stamp m)%nat.

(** The positions the last lifecycle event left arrows for. *)
Definition shown (events : list MapComponent.Lifecycle)
  : option (list MapComponent.LatLng) :=
  match last events with
  | Some (MapComponent.Commit (Some (p :: positions))) => Some (p :: positions)
  | _ => None
  end.

(** ** The end-to-end scenario *)

Module Scenario.

Definition depot : Location := {| lat := 25.1825; lon := 75.8236 |}.
Definition pickup : Location := {| lat := 25.20; lon := 75.85 |}.
Definition delivery : Location := {| lat := 25.15; lon := 75.80 |}.

Definition order1 : Order :=
  {| id := "order1"; details := "Surplus meals"; ngo_name := "Food Bank";
     pickup_location := pickup; delivery_location := delivery;
     pickup_window := Some {| start := 0; end_ := 90 |} |}.

(** An order that came without a pickup window. *)
Definition order2 : Order :=
  {| id := "order2"; details := "Bread"; ngo_name := "Shelter";
     pickup_location := pickup; delivery_location := delivery;
     pickup_window := None |}.

Definition stops : list Stop :=
  [ {| location_id := "DEPOT"; type := "start" |};
    {| location_id := "order1_pickup"; type := "pickup" |};
    {| location_id := "order1_delivery"; type := "delivery" |} ].

Definition locations : gmap string Location :=
  App.createLocationLookup (Some App.myVehicle) [order1].

(** A later optimizer answer naming a stop the lookup does not know. *)
Definition unknownStops : list Stop :=
  [ {| location_id := "order2_pickup"; type := "pickup" |} ].

(** An optimizer answer with a stop whose id is a name every object
    inherits. *)
Definition inheritedStops : list Stop :=
  [ {| location_id := "constructor"; type := "pickup" |} ].

(** A second route over the same lookup: the pickup only. *)
Definition pickupOnly : list Stop :=
  [ {| location_id := "order1_pickup"; type := "pickup" |} ].

(** Road geometries, as the routing service lists them ([lon, lat]). *)
Definition roadA : list (Q * Q) :=
  [ (75.8236, 25.1825); (75.83, 25.19); (75.85, 25.20);
    (75.82, 25.17); (75.80, 25.15) ]%Q.
Definition roadB : list (Q * Q) :=
  [ (75.8236, 25.1825); (75.84, 25.19); (75.85, 25.20) ]%Q.

(** A second order, due earlier than [order1]. *)
Definition order3 : Order :=
  {| id := "order3"; details := "Fruit"; ngo_name := "Shelter";
     pickup_location := delivery; delivery_location := pickup;
     pickup_window := Some {| start := 0; end_ := 30 |} |}.

(** An answer of the optimizer for [stops]. *)
Definition optimizerAnswer : Js.AxiosResult (option App.OptimizeData) :=
  Js.Resolved (Some {| App.opt_route := Some stops;
                       App.total_distance := 12400 |}).

(** The dashboard after a fetch and an optimization. *)
Definition optimized : App.State :=
  {| App.vehicle := Some App.myVehicle; App.orders := [order1];
     App.route := Some stops; App.distance := App.DistanceText "12.40";
     App.loading := false; App.error := None; App.darkMode := true |}.

End Scenario.

(** * Properties *)

(** ** The location lookup *)

Section LookupKeys.

(** No key written for an order is one of the depot keys: the suffixes
    differ from the ends of the depot keys. *)
Ltac peel H s :=
  repeat (destruct s as [|? s]; simpl in H; [discriminate H|];
          injection H as _ H);
  destruct s; discriminate H.

Lemma pickup_key_not_depot (s k : string) :
  k ∈ ["DEPOT"; "DEPOT_START"; "DEPOT_END"] -> s +:+ "_pickup" ≠ k.
Proof.
  intros Hk H. repeat (apply elem_of_cons in Hk as [-> | Hk]);
    [peel H s | peel H s | peel H s | inversion Hk].
Qed.

Lemma delivery_key_not_depot (s k : string) :
  k ∈ ["DEPOT"; "DEPOT_START"; "DEPOT_END"] -> s +:+ "_delivery" ≠ k.
Proof.
  intros Hk H. repeat (apply elem_of_cons in Hk as [-> | Hk]);
    [peel H s | peel H s | peel H s | inversion Hk].
Qed.

Lemma addOrder_lookup_depot (lookup : gmap string Location) (o : Order) (k : string) :
  k ∈ ["DEPOT"; "DEPOT_START"; "DEPOT_END"] ->
  App.addOrder lookup o !! k = lookup !! k.
Proof.
  intros Hk. unfold App.addOrder. cbn zeta.
  rewrite lookup_insert_ne by (by apply delivery_key_not_depot).
  rewrite lookup_insert_ne by (by apply pickup_key_not_depot).
  reflexivity.
Qed.

Lemma forEach_lookup_depot (orders : list Order) (lookup : gmap string Location)
    (k : string) :
  k ∈ ["DEPOT"; "DEPOT_START"; "DEPOT_END"] ->
  foldl App.addOrder lookup orders !! k = lookup !! k.
Proof.
  intros Hk. revert lookup.
  induction orders as [|o orders IH]; intros lookup; simpl; [done|].
  rewrite IH. by apply addOrder_lookup_depot.
Qed.

Lemma forEach_dom (orders : list Order) (lookup : gmap string Location) (k : string) :
  k ∈ dom (foldl App.addOrder lookup orders) <->
  k ∈ dom lookup \/
  exists o, o ∈ orders /\ (k = id o +:+ "_pickup" \/ k = id o +:+ "_delivery").
Proof.
  revert lookup. induction orders as [|o orders IH]; intros lookup; simpl.
  - split; [by left|]. intros [H | (o & Ho & _)]; [done | inversion Ho].
  - rewrite IH. unfold App.addOrder at 1. cbn zeta.
    rewrite !dom_insert_L, !elem_of_union, !elem_of_singleton.
    split.
    + intros [[H | [H | H]] | (o' & Ho' & H)].
      * right. exists o. split; [left | by right].
      * right. exists o. split; [left | by left].
      * by left.
      * right. exists o'. split; [by right | done].
    + intros [H | (o' & Ho' & H)]; [by left; right; right|].
      apply elem_of_cons in Ho' as [-> | Ho'].
      * left. destruct H as [H | H]; [right; by left | by left].
      * right. by exists o'.
Qed.

End LookupKeys.

(** C10.  With a vehicle set, the lookup maps "DEPOT", "DEPOT_START" and
    "DEPOT_END" to the vehicle's [start_location], whatever the orders
    are, and its keys are exactly these three and, for every order, its id
    followed by "_pickup" and by "_delivery". *)
Theorem createLocationLookup_depot_and_keys (v : Vehicle) (orders : list Order) :
  let lookup := App.createLocationLookup (Some v) orders in
  lookup !! "DEPOT" = Some (start_location v) /\
  lookup !! "DEPOT_START" = Some (start_location v) /\
  lookup !! "DEPOT_END" = Some (start_location v) /\
  forall k : string,
    k ∈ dom lookup <->
    k ∈ ["DEPOT"; "DEPOT_START"; "DEPOT_END"] \/
    exists o, o ∈ orders /\ (k = id o +:+ "_pickup" \/ k = id o +:+ "_delivery").
Proof.
  cbn zeta. unfold App.createLocationLookup. cbn zeta.
  split; [|split; [|split]].
  - rewrite forEach_lookup_depot by (rewrite !elem_of_cons; tauto).
    by simplify_map_eq.
  - rewrite forEach_lookup_depot by (rewrite !elem_of_cons; tauto).
    by simplify_map_eq.
  - rewrite forEach_lookup_depot by (rewrite !elem_of_cons; tauto).
    by simplify_map_eq.
  - intros k. rewrite forEach_dom, !dom_insert_L, dom_empty_L.
    rewrite !elem_of_union, !elem_of_singleton, !elem_of_cons.
    pose proof (not_elem_of_empty (C := gset string) k).
    pose proof (not_elem_of_nil k). tauto.
Qed.

(** Without a vehicle there is no depot key at all. *)
Lemma createLocationLookup_no_vehicle (orders : list Order) (k : string) :
  k ∈ dom (App.createLocationLookup None orders) <->
  exists o, o ∈ orders /\ (k = id o +:+ "_pickup" \/ k = id o +:+ "_delivery").
Proof.
  unfold App.createLocationLookup. cbn zeta. rewrite forEach_dom, dom_empty_L.
  split; [intros [H | H]; [by apply not_elem_of_empty in H | done] | by right].
Qed.

(** ** Order urgency *)

Lemma tierStyle_inj (darkMode : bool) (t1 t2 : App.UrgencyTier) :
  App.tierStyle darkMode t1 = App.tierStyle darkMode t2 -> t1 = t2.
Proof. destruct t1, t2; simpl; intros H; congruence. Qed.

Lemma getOrderStyle_cases (darkMode : bool) (m : Z) :
  (m <= 120 /\ App.getOrderStyle darkMode m = App.tierStyle darkMode App.CRITICAL)%Z \/
  (120 < m <= 300 /\ App.getOrderStyle darkMode m = App.tierStyle darkMode App.HIGH)%Z \/
  (300 < m /\ App.getOrderStyle darkMode m = App.tierStyle darkMode App.NORMAL)%Z.
Proof.
  unfold App.getOrderStyle.
  destruct (Z.leb_spec m 120); [by left|].
  destruct (Z.leb_spec m 300); [right; left | right; right]; split; (lia || done).
Qed.

(** C4.  [getOrderStyle] gives the critical style exactly for
    [minutesRemaining <= 120] (zero and the negatives included), the
    high-priority style exactly for [120 < minutesRemaining <= 300], the
    normal style exactly above 300; so 120 is critical, 121 and 300 are
    high, 301 is normal, and every integer falls in exactly one tier. *)
Theorem getOrderStyle_tiers (darkMode : bool) (minutesRemaining : Z) :
  let style := App.getOrderStyle darkMode minutesRemaining in
  ((style = App.tierStyle darkMode App.CRITICAL <-> minutesRemaining <= 120) /\
   (style = App.tierStyle darkMode App.HIGH <-> 120 < minutesRemaining <= 300) /\
   (style = App.tierStyle darkMode App.NORMAL <-> 300 < minutesRemaining))%Z /\
  (App.getOrderStyle darkMode 120 = App.tierStyle darkMode App.CRITICAL /\
   App.getOrderStyle darkMode 121 = App.tierStyle darkMode App.HIGH /\
   App.getOrderStyle darkMode 300 = App.tierStyle darkMode App.HIGH /\
   App.getOrderStyle darkMode 301 = App.tierStyle darkMode App.NORMAL /\
   App.getOrderStyle darkMode 0 = App.tierStyle darkMode App.CRITICAL) /\
  (exists t, style = App.tierStyle darkMode t /\
             forall t', style = App.tierStyle darkMode t' -> t' = t).
Proof.
  cbn zeta. split; [|split; [by repeat split|]].
  - destruct (getOrderStyle_cases darkMode minutesRemaining)
      as [[Hm ->] | [[Hm ->] | [Hm ->]]];
      (split; [|split]); split; intros Ht; try lia; try done;
      apply tierStyle_inj in Ht; discriminate Ht.
  - destruct (getOrderStyle_cases darkMode minutesRemaining)
      as [[_ ->] | [[_ ->] | [_ ->]]];
      (eexists; split; [reflexivity|]);
      intros t' Ht; symmetry; by apply tierStyle_inj in Ht.
Qed.

(** C9.  An order without a [pickup_window] gets 999 as its minutes left,
    so its card has the normal style and is not flagged critical. *)
Theorem orderCard_no_pickup_window (darkMode : bool) (order : Order) :
  pickup_window order = None ->
  App.minutesLeft (App.orderCard darkMode order) = 999%Z /\
  App.cardStyle (App.orderCard darkMode order) = App.tierStyle darkMode App.NORMAL /\
  App.isCritical (App.orderCard darkMode order) = false.
Proof. intros H. unfold App.orderCard. rewrite H. by repeat split. Qed.

Lemma orderCard_no_pickup_window_witness :
  App.minutesLeft (App.orderCard true Scenario.order2) = 999%Z /\
  App.cardStyle (App.orderCard true Scenario.order2)
    = App.tierStyle true App.NORMAL /\
  App.isCritical (App.orderCard true Scenario.order2) = false.
Proof.
  apply (orderCard_no_pickup_window true Scenario.order2 ltac:(reflexivity)).
Defined.

(** ** Stop markers *)

Lemma read_own (locations : gmap string Location) (name : string) (loc : Location) :
  locations !! name = Some loc -> MapComponent.read locations name = Some loc.
Proof. intros H. unfold MapComponent.read. by rewrite H. Qed.

Lemma read_not_inherited (locations : gmap string Location) (name : string) :
  name ∉ MapComponent.objectPrototype ->
  MapComponent.read locations name = locations !! name.
Proof.
  intros H. unfold MapComponent.read.
  destruct (locations !! name); [done|]. by rewrite bool_decide_eq_false_2.
Qed.

Lemma read_inherited (locations : gmap string Location) (name : string) :
  locations !! name = None -> name ∈ MapComponent.objectPrototype ->
  MapComponent.read locations name = Some MapComponent.inheritedMember.
Proof.
  intros H Hin. unfold MapComponent.read. rewrite H.
  by rewrite bool_decide_eq_true_2.
Qed.

Lemma stopMarker_Some (locations : gmap string Location) (idx : nat) (point : Stop)
    (m : MapComponent.Marker) :
  MapComponent.stopMarker locations idx point = Some m <->
  exists loc, MapComponent.read locations (location_id point) = Some loc /\
    type point ≠ "start" /\
    m = {| MapComponent.key := idx;
           MapComponent.position := (lat loc, lon loc);
           MapComponent.icon := MapComponent.createPin (type point) |}.
Proof.
  unfold MapComponent.stopMarker.
  destruct (MapComponent.read locations (location_id point)) as [loc|].
  - destruct (decide (type point = "start")) as [Hs | Hs].
    + split; [done | intros (? & _ & ? & _); done].
    + split.
      * intros [= <-]. by exists loc.
      * intros (loc' & [= <-] & _ & ->). done.
  - split; [done | intros (? & ? & _); done].
Qed.

Lemma length_rendered (P : Stop -> Prop) `{!forall p, Decision (P p)}
    (route : list Stop) (f : nat -> Stop -> option MapComponent.Marker) :
  (forall i p, is_Some (f i p) <-> P p) ->
  length (omap (fun m => m) (imap f route)) = length (filter P route).
Proof.
  revert f. induction route as [|p route IH]; intros f Hf; [done|].
  rewrite imap_cons, filter_cons. cbn [omap list_omap].
  destruct (decide (P p)) as [Hp | Hp].
  - apply Hf with (i := 0%nat) in Hp as [m ->]. cbn.
    f_equal. apply IH. intros i q. apply Hf.
  - destruct (f 0%nat p) as [m|] eqn:E.
    + exfalso. apply Hp. apply (Hf 0%nat). by eexists.
    + apply IH. intros i q. apply Hf.
Qed.

Lemma stopMarker_shows (locations : gmap string Location) (i : nat) (p : Stop) :
  is_Some (MapComponent.stopMarker locations i p) <-> showsMarker locations p.
Proof.
  unfold showsMarker. split.
  - intros [m Hm]. apply stopMarker_Some in Hm as (loc & Hloc & Hty & _).
    split; [by eexists | done].
  - intros [[loc Hloc] Hty]. eexists. apply stopMarker_Some. by exists loc.
Qed.

(** The markers the layer mounts: one for each stop of the route whose
    [locations[location_id]] is truthy and whose type is not "start",
    carrying its index, the coordinates read and the pin of its type; a
    "start", a "pickup" and a "delivery" stop with entries in the lookup
    give two markers. *)
Lemma stopMarkers_exactly (route : list Stop) (locations : gmap string Location) :
  (forall m : MapComponent.Marker,
     m ∈ MapComponent.stopMarkers (Some route) locations <->
     exists idx point loc,
       route !! idx = Some point /\
       MapComponent.read locations (location_id point) = Some loc /\
       type point ≠ "start" /\
       m = {| MapComponent.key := idx;
              MapComponent.position := (lat loc, lon loc);
              MapComponent.icon := MapComponent.createPin (type point) |}) /\
  length (MapComponent.stopMarkers (Some route) locations) =
    length (filter (showsMarker locations) route) /\
  (forall (a b c : string) (la lb lc : Location),
     let locations' := <[a := la]> (<[b := lb]> (<[c := lc]> locations)) in
     length (MapComponent.stopMarkers
               (Some [ {| location_id := a; type := "start" |};
                       {| location_id := b; type := "pickup" |};
                       {| location_id := c; type := "delivery" |} ])
               locations') = 2%nat).
Proof.
  split; [|split].
  - intros m. unfold MapComponent.stopMarkers.
    rewrite list_elem_of_omap. split.
    + intros (om & Hin & ->).
      apply elem_of_lookup_imap in Hin as (idx & point & Hm & Hidx).
      symmetry in Hm. apply stopMarker_Some in Hm as (loc & Hloc & Hty & ->).
      by exists idx, point, loc.
    + intros (idx & point & loc & Hidx & Hloc & Hty & ->).
      eexists. split; [|reflexivity].
      apply elem_of_lookup_imap. exists idx, point. split; [|done].
      symmetry. apply stopMarker_Some. by exists loc.
  - unfold MapComponent.stopMarkers.
    apply (length_rendered (showsMarker locations)), stopMarker_shows.
  - intros a b c la lb lc locations'. unfold MapComponent.stopMarkers.
    rewrite (length_rendered (showsMarker locations')) by apply stopMarker_shows.
    assert (Ha : is_Some (MapComponent.read locations' a)).
    { exists la. apply read_own. unfold locations'. by rewrite lookup_insert_eq. }
    assert (Hb : is_Some (MapComponent.read locations' b)).
    { unfold locations'. destruct (decide (a = b)) as [-> | ?].
      - exists la. apply read_own. by rewrite lookup_insert_eq.
      - exists lb. apply read_own.
        rewrite lookup_insert_ne by done. by rewrite lookup_insert_eq. }
    assert (Hc : is_Some (MapComponent.read locations' c)).
    { unfold locations'. destruct (decide (a = c)) as [-> | ?].
      - exists la. apply read_own. by rewrite lookup_insert_eq.
      - destruct (decide (b = c)) as [-> | ?].
        + exists lb. apply read_own.
          rewrite lookup_insert_ne by done. by rewrite lookup_insert_eq.
        + exists lc. apply read_own.
          rewrite !lookup_insert_ne by done. by rewrite lookup_insert_eq. }
    rewrite !filter_cons, filter_nil.
    destruct (decide (showsMarker locations' _)) as [[_ H] | _]; [done|].
    destruct (decide (showsMarker locations' _)) as [_ | H];
      [|exfalso; apply H; by split].
    destruct (decide (showsMarker locations' _)) as [_ | H];
      [done | exfalso; apply H; by split].
Qed.

(** On a route none of whose location ids is a name inherited from
    [Object.prototype], the markers are exactly those of the stops that
    have an entry in the lookup and whose type is not "start". *)
Lemma stopMarkers_own_entries (route : list Stop) (locations : gmap string Location) :
  Forall (fun p => location_id p ∉ MapComponent.objectPrototype) route ->
  (forall m : MapComponent.Marker,
     m ∈ MapComponent.stopMarkers (Some route) locations <->
     exists idx point loc,
       route !! idx = Some point /\
       locations !! location_id point = Some loc /\
       type point ≠ "start" /\
       m = {| MapComponent.key := idx;
              MapComponent.position := (lat loc, lon loc);
              MapComponent.icon := MapComponent.createPin (type point) |}) /\
  length (MapComponent.stopMarkers (Some route) locations) =
    length (filter (rendersMarker locations) route).
Proof.
  intros Hroute. destruct (stopMarkers_exactly route locations) as (Hm & Hlen & _).
  split.
  - intros m. rewrite Hm. split.
    + intros (idx & point & loc & Hidx & Hloc & Hty & ->).
      exists idx, point, loc. repeat split; [done | | done].
      rewrite <- Hloc. symmetry. apply read_not_inherited.
      apply (proj1 (Forall_forall _ _) Hroute point).
      by eapply list_elem_of_lookup_2.
    + intros (idx & point & loc & Hidx & Hloc & Hty & ->).
      exists idx, point, loc. repeat split; [done | by apply read_own | done].
  - rewrite Hlen. clear Hm Hlen.
    induction Hroute as [|p route Hp Hroute IH]; [done|].
    rewrite !filter_cons.
    assert (showsMarker locations p <-> rendersMarker locations p) as Hiff.
    { unfold showsMarker, rendersMarker. by rewrite read_not_inherited. }
    destruct (decide (showsMarker locations p)) as [H | H];
    destruct (decide (rendersMarker locations p)) as [H' | H'];
      cbn; try (exfalso; tauto); by rewrite IH.
Qed.

(** The same stop is a waypoint of the route: with the depot in front
    there are two waypoints, and a request goes out. *)
Lemma inherited_name_is_a_waypoint :
  MapComponent.extractWaypoints Scenario.inheritedStops Scenario.locations
  = [Scenario.depot; MapComponent.inheritedMember] /\
  launches (MapComponent.Render (Some Scenario.inheritedStops) Scenario.locations)
  = true.
Proof. by vm_compute. Qed.

(** C7 (at the failing input).  The lookup of the scenario has no entry
    "constructor": by the claim the stop is skipped and no marker is
    shown.  The lookup is a plain object, so [locations["constructor"]] is
    the inherited constructor, which is truthy: the stop is not skipped,
    and a marker is built at [[undefined, undefined]]. *)
Theorem inherited_name_renders_marker :
  Scenario.locations !! "constructor" = None /\
  filter (rendersMarker Scenario.locations) Scenario.inheritedStops = [] /\
  MapComponent.stopMarkers (Some Scenario.inheritedStops) Scenario.locations =
    [ {| MapComponent.key := 0;
         MapComponent.position := (Undefined, Undefined);
         MapComponent.icon := MapComponent.createPin "pickup" |} ].
Proof.
  split; [by vm_compute|]. split; [|by vm_compute].
  unfold Scenario.inheritedStops. rewrite filter_cons, filter_nil.
  destruct (decide (rendersMarker _ _)) as [[[loc H] _] | _]; [|done].
  by vm_compute in H.
Qed.

(** ** Route resolution *)

Section Resolver.

Import MapComponent.

Implicit Types (s : State) (waypoints : list Location)
  (response : Js.AxiosResult (option OsrmData)).

(** The three ways the [try] block can end. *)
Lemma fetchRoadShape_try_cases response s :
  (Raises response /\ fetchRoadShape_try response s = (None, s)) \/
  (exists d, response = Js.Resolved (Some d) /\
             (routes d = None \/ routes d = Some []) /\
             fetchRoadShape_try response s = (Some tt, s)) \/
  (exists d r rest g cs,
      response = Js.Resolved (Some d) /\ routes d = Some (r :: rest) /\
      geometry r = Some g /\ coordinates g = Some cs /\
      fetchRoadShape_try response s = (Some tt, setRoutePath (flipped cs) s)).
Proof.
  destruct response as [|[d|]].
  - left. split; [constructor | reflexivity].
  - destruct (routes d) as [[|r rest]|] eqn:Hr.
    + right; left. exists d. unfold fetchRoadShape_try. cbn. rewrite Hr. eauto.
    + destruct (geometry r) as [g|] eqn:Hg.
      * destruct (coordinates g) as [cs|] eqn:Hc.
        -- right; right. exists d, r, rest, g, cs.
           unfold fetchRoadShape_try. cbn. rewrite Hr. cbn. rewrite Hg. cbn.
           rewrite Hc. cbn. eauto 10.
        -- left. split; [by eapply raises_no_coordinates|].
           unfold fetchRoadShape_try. cbn. rewrite Hr. cbn. rewrite Hg. cbn.
           by rewrite Hc.
      * left. split; [by eapply raises_no_geometry|].
        unfold fetchRoadShape_try. cbn. rewrite Hr. cbn. by rewrite Hg.
    + right; left. exists d. unfold fetchRoadShape_try. cbn. rewrite Hr. eauto.
  - left. split; [constructor | reflexivity].
Qed.

Lemma routingRaises_iff response : routingRaises response <-> Raises response.
Proof.
  unfold routingRaises.
  destruct (fetchRoadShape_try_cases response initial)
    as [[HR E] | [(d & -> & Hd & E) | (d & r & rest & g & cs & -> & Hr & Hg & Hc & E)]];
    rewrite E; cbn.
  - done.
  - split; [done|]. intros HR. inversion HR; subst; destruct Hd; congruence.
  - split; [done|]. intros HR. inversion HR; subst; congruence.
Qed.

(** When the [try] block raises, the [catch] draws the straight line. *)
Lemma fetchRoadShape_fallback waypoints response s :
  routingRaises response ->
  Js.exec (fetchRoadShape waypoints response) s =
  setRoutePath (straightLine waypoints) s.
Proof.
  intros HR%routingRaises_iff. unfold Js.exec, fetchRoadShape, Js.tryCatch.
  destruct (fetchRoadShape_try_cases response s)
    as [[_ E] | [(d & -> & Hd & _) | (d & r & rest & g & cs & -> & Hr & Hg & Hc & _)]].
  - by rewrite E.
  - inversion HR; subst; destruct Hd; congruence.
  - inversion HR; subst; congruence.
Qed.

(** A route-bearing answer draws the flipped geometry. *)
Lemma fetchRoadShape_success waypoints d r rest g cs s :
  routes d = Some (r :: rest) -> geometry r = Some g -> coordinates g = Some cs ->
  Js.exec (fetchRoadShape waypoints (Js.Resolved (Some d))) s =
  setRoutePath (flipped cs) s.
Proof.
  intros Hr Hg Hc. unfold Js.exec, fetchRoadShape, Js.tryCatch, fetchRoadShape_try.
  cbn. rewrite Hr. cbn. rewrite Hg. cbn. by rewrite Hc.
Qed.

(** An answer without routes changes nothing. *)
Lemma fetchRoadShape_no_route waypoints d s :
  routes d = None \/ routes d = Some [] ->
  Js.exec (fetchRoadShape waypoints (Js.Resolved (Some d))) s = s.
Proof.
  intros Hd. unfold Js.exec, fetchRoadShape, Js.tryCatch, fetchRoadShape_try.
  cbn. by destruct Hd as [-> | ->].
Qed.

(** X24.  [fetchRoadShape] itself never raises, whatever the routing
    service answers: the [catch] handles whatever the [try] block
    throws. *)
Lemma fetchRoadShape_never_raises waypoints response s :
  fst (fetchRoadShape waypoints response s) = Some tt.
Proof.
  unfold fetchRoadShape, Js.tryCatch.
  destruct (fetchRoadShape_try_cases response s)
    as [[_ E] | [(d & -> & _ & E) | (d & r & rest & g & cs & -> & _ & _ & _ & E)]];
    by rewrite E.
Qed.

(** The continuation only ever writes [routePath]. *)
Lemma fetchRoadShape_frame waypoints response s :
  inflight (Js.exec (fetchRoadShape waypoints response) s) = inflight s /\
  issued (Js.exec (fetchRoadShape waypoints response) s) = issued s.
Proof.
  unfold Js.exec, fetchRoadShape, Js.tryCatch.
  destruct (fetchRoadShape_try_cases response s)
    as [[_ E] | [(d & -> & _ & E) | (d & r & rest & g & cs & -> & _ & _ & _ & E)]];
    by rewrite E.
Qed.

End Resolver.

(** ** The event loop of the map component *)

Section EventLoop.

Import MapComponent.

Implicit Types (s : State) (e : Event) (events : list Event).

Lemma bounded_initial : bounded initial.
Proof. intros n [w Hw]. cbn in Hw. by rewrite lookup_empty in Hw. Qed.

Lemma routeEffect_cases route locations s :
  routeEffect route locations s = setRoutePath [] s \/
  routeEffect route locations s = s \/
  exists waypoints, routeEffect route locations s = launch waypoints s.
Proof.
  unfold routeEffect. destruct route as [[|p route]|]; [by left | | by left].
  destruct (_ <? _)%nat; [right; by left | right; right; by eexists].
Qed.

Lemma settle_inflight request response s :
  inflight (settle request response s) = delete request (inflight s) /\
  issued (settle request response s) = issued s.
Proof.
  unfold settle. destruct (inflight s !! request) as [w|] eqn:E.
  - destruct (fetchRoadShape_frame w response
                {| routePath := routePath s;
                   inflight := delete request (inflight s);
                   issued := issued s |}) as [-> ->]. done.
  - split; [|done]. symmetry. by apply delete_id.
Qed.

Lemma step_bounded s e : bounded s -> bounded (step s e).
Proof.
  intros Hb. destruct e as [route locations | request response]; cbn.
  - destruct (routeEffect_cases route locations s) as [-> | [-> | [w ->]]];
      [done | done |].
    intros n. cbn. destruct (decide (issued s = n)) as [<- | Hn]; [lia|].
    rewrite lookup_insert_ne by done. intros H%Hb. lia.
  - intros n. destruct (settle_inflight request response s) as [-> ->].
    intros [w Hw]. apply Hb. exists w.
    destruct (decide (request = n)) as [-> | Hn];
      [by rewrite lookup_delete_eq in Hw | by rewrite lookup_delete_ne in Hw].
Qed.

Lemma run_bounded events s : bounded s -> bounded (run events s).
Proof.
  revert s. induction events as [|e events IH]; intros s Hb; [done|].
  cbn. apply IH. by apply step_bounded.
Qed.

(** A request stays in flight, with the waypoints it captured, until it
    settles: neither a later run of the effect nor the settling of
    another request touches it. *)
Lemma step_keeps_inflight s e request waypoints :
  bounded s -> inflight s !! request = Some waypoints ->
  settles request e = false ->
  inflight (step s e) !! request = Some waypoints.
Proof.
  intros Hb Hin He. destruct e as [route locations | n response]; cbn.
  - destruct (routeEffect_cases route locations s) as [-> | [-> | [w ->]]];
      [done | done |].
    cbn. rewrite lookup_insert_ne; [done|].
    assert (request < issued s)%nat by (apply Hb; by eexists). lia.
  - destruct (settle_inflight n response s) as [-> _].
    cbn in He. apply Nat.eqb_neq in He. by rewrite lookup_delete_ne.
Qed.

Lemma run_keeps_inflight events s request waypoints :
  bounded s -> inflight s !! request = Some waypoints ->
  existsb (settles request) events = false ->
  inflight (run events s) !! request = Some waypoints.
Proof.
  revert s. induction events as [|e events IH]; intros s Hb Hin He; [done|].
  cbn in He. apply orb_false_elim in He as [He Hes].
  cbn. apply IH; [by apply step_bounded | by apply step_keeps_inflight | done].
Qed.

Lemma settle_routePath_raises request waypoints response s :
  inflight s !! request = Some waypoints -> routingRaises response ->
  routePath (settle request response s) = straightLine waypoints.
Proof.
  intros Hin HR. unfold settle. rewrite Hin.
  by rewrite fetchRoadShape_fallback.
Qed.

Lemma settle_routePath_road request waypoints cs rest s :
  inflight s !! request = Some waypoints ->
  routePath (settle request (roadAnswer cs rest) s) = flipped cs.
Proof.
  intros Hin. unfold settle, roadAnswer. rewrite Hin.
  by erewrite fetchRoadShape_success.
Qed.

(** The effect on a route with fewer than two waypoints. *)
Lemma routeEffect_no_route locations s :
  routePath (routeEffect None locations s) = [] /\
  routePath (routeEffect (Some []) locations s) = [].
Proof. done. Qed.

Lemma routeEffect_degenerate point route locations s :
  (length (extractWaypoints (point :: route) locations) < 2)%nat ->
  routeEffect (Some (point :: route)) locations s = s.
Proof.
  intros H. unfold routeEffect. by apply Nat.ltb_lt in H as ->.
Qed.

End EventLoop.

(** ** Route resolution: the claims *)

(** The scenario's waypoints: the stop "DEPOT" resolves to the depot and
    the depot is put in front once more. *)
Lemma scenario_waypoints :
  MapComponent.extractWaypoints Scenario.stops Scenario.locations =
  [Scenario.depot; Scenario.depot; Scenario.pickup; Scenario.delivery].
Proof. vm_compute. reflexivity. Qed.

Lemma scenario_render :
  MapComponent.routeEffect (Some Scenario.stops) Scenario.locations
    MapComponent.initial =
  MapComponent.launch
    [Scenario.depot; Scenario.depot; Scenario.pickup; Scenario.delivery]
    MapComponent.initial.
Proof.
  unfold MapComponent.routeEffect. cbn [Scenario.stops].
  by rewrite scenario_waypoints.
Qed.

(** C1 (at the failing input).  After the scenario's route has been drawn
    as a straight line, the effect runs on a one-stop route whose stop the
    lookup does not know: one waypoint remains (the depot), and the path
    drawn before stays in [routePath]. *)
Theorem degenerate_route_keeps_stale_path :
  let s := MapComponent.run
             [ MapComponent.Render (Some Scenario.stops) Scenario.locations;
               MapComponent.Settle 0 Js.Rejected ] MapComponent.initial in
  let s' := MapComponent.step s
              (MapComponent.Render (Some Scenario.unknownStops) Scenario.locations) in
  length (MapComponent.extractWaypoints Scenario.unknownStops Scenario.locations)
    = 1%nat /\
  MapComponent.routePath s' = MapComponent.routePath s /\
  MapComponent.routePath s' =
    [ (25.1825, 75.8236); (25.1825, 75.8236); (25.20, 75.85); (25.15, 75.80) ]%Q.
Proof. vm_compute. by repeat split. Qed.

(** C2 (at the failing input).  The scenario's route has four waypoints;
    the routing service answers with an empty route list; no path is
    drawn, where the straight line has four points. *)
Theorem empty_route_list_draws_nothing :
  let waypoints :=
    MapComponent.extractWaypoints Scenario.stops Scenario.locations in
  let s := MapComponent.run
             [ MapComponent.Render (Some Scenario.stops) Scenario.locations;
               MapComponent.Settle 0 emptyAnswer ] MapComponent.initial in
  length waypoints = 4%nat /\
  MapComponent.routePath s = [] /\
  length (straightLine waypoints) = 4%nat.
Proof. vm_compute. by repeat split. Qed.

(** C3, as stated, fails: resolution A (the scenario's route) starts,
    resolution B (the pickup only) starts, B completes with its road
    geometry, then A completes; the displayed path is no longer B's. *)
Lemma late_completion_clobbers :
  let sB := MapComponent.run
              [ MapComponent.Render (Some Scenario.stops) Scenario.locations;
                MapComponent.Render (Some Scenario.pickupOnly) Scenario.locations;
                MapComponent.Settle 1 (roadAnswer Scenario.roadB []) ]
              MapComponent.initial in
  let sA := MapComponent.step sB
              (MapComponent.Settle 0 (roadAnswer Scenario.roadA [])) in
  ~ (MapComponent.routePath sA = MapComponent.routePath sB).
Proof. vm_compute. discriminate. Qed.

(** C3, amended.  A completion is applied to the displayed path whatever
    has happened since its request went out: if request A is in flight and
    the events that follow (later runs of the effect, completions of other
    requests) do not settle it, then when A settles the displayed path is
    A's result: the straight line through A's waypoints when its [try]
    block raises, the flipped geometry when A's answer carries a route. *)
Theorem late_completion_is_applied
    (before between : list MapComponent.Event) (a : nat)
    (waypointsA : list Location) :
  MapComponent.inflight (MapComponent.run before MapComponent.initial) !! a
    = Some waypointsA ->
  existsb (settles a) between = false ->
  let s := MapComponent.run (before ++ between) MapComponent.initial in
  (forall response, routingRaises response ->
     MapComponent.routePath (MapComponent.step s (MapComponent.Settle a response))
     = straightLine waypointsA) /\
  (forall cs rest,
     MapComponent.routePath
       (MapComponent.step s (MapComponent.Settle a (roadAnswer cs rest)))
     = flipped cs).
Proof.
  intros Hin Hbetween s.
  assert (Hs : MapComponent.inflight s !! a = Some waypointsA).
  { unfold s, MapComponent.run. rewrite foldl_app.
    apply run_keeps_inflight; [|done..].
    apply run_bounded, bounded_initial. }
  split.
  - intros response HR. cbn. by apply settle_routePath_raises.
  - intros cs rest. cbn. by apply (settle_routePath_road a waypointsA).
Qed.

Lemma late_completion_is_applied_witness :
  MapComponent.routePath
    (MapComponent.run
       [ MapComponent.Render (Some Scenario.stops) Scenario.locations;
         MapComponent.Render (Some Scenario.pickupOnly) Scenario.locations;
         MapComponent.Settle 1 (roadAnswer Scenario.roadB []);
         MapComponent.Settle 0 (roadAnswer Scenario.roadA []) ]
       MapComponent.initial)
  = flipped Scenario.roadA.
Proof.
  apply (proj2 (late_completion_is_applied
    [ MapComponent.Render (Some Scenario.stops) Scenario.locations ]
    [ MapComponent.Render (Some Scenario.pickupOnly) Scenario.locations;
      MapComponent.Settle 1 (roadAnswer Scenario.roadB []) ]
    0 [Scenario.depot; Scenario.depot; Scenario.pickup; Scenario.delivery]
    ltac:(vm_compute; reflexivity) ltac:(reflexivity))
    Scenario.roadA []).
Defined.

(** C5, as stated, fails: the resolver does not work on three waypoints,
    and the fallback path is not the three-point line. *)
Lemma scenario_not_three_waypoints :
  ~ (length (MapComponent.extractWaypoints Scenario.stops Scenario.locations)
       = 3%nat /\
     MapComponent.routePath
       (MapComponent.run
          [ MapComponent.Render (Some Scenario.stops) Scenario.locations;
            MapComponent.Settle 0 Js.Rejected ] MapComponent.initial)
     = straightLine [Scenario.depot; Scenario.pickup; Scenario.delivery]).
Proof. vm_compute. intros [H _]. discriminate H. Qed.

(** C5, amended.  In the end-to-end scenario the resolver works on four
    waypoints: the depot twice (once put in front, once for the stop
    "DEPOT"), the pickup, the delivery; and when the [try] block of
    [fetchRoadShape] raises, the path has exactly these four points, in
    this order. *)
Theorem scenario_four_waypoints
    (response : Js.AxiosResult (option MapComponent.OsrmData)) :
  routingRaises response ->
  MapComponent.extractWaypoints Scenario.stops Scenario.locations =
    [Scenario.depot; Scenario.depot; Scenario.pickup; Scenario.delivery] /\
  MapComponent.routePath
    (MapComponent.run
       [ MapComponent.Render (Some Scenario.stops) Scenario.locations;
         MapComponent.Settle 0 response ] MapComponent.initial)
  = [ (25.1825, 75.8236); (25.1825, 75.8236); (25.20, 75.85); (25.15, 75.80) ]%Q.
Proof.
  intros HR. split; [apply scenario_waypoints|].
  unfold MapComponent.run. cbn [foldl MapComponent.step].
  rewrite scenario_render.
  rewrite (settle_routePath_raises 0
    [Scenario.depot; Scenario.depot; Scenario.pickup; Scenario.delivery]);
    [reflexivity | | done].
  cbn. by rewrite lookup_insert_eq.
Qed.

Lemma scenario_four_waypoints_witness :
  MapComponent.routePath
    (MapComponent.run
       [ MapComponent.Render (Some Scenario.stops) Scenario.locations;
         MapComponent.Settle 0 Js.Rejected ] MapComponent.initial)
  = [ (25.1825, 75.8236); (25.1825, 75.8236); (25.20, 75.85); (25.15, 75.80) ]%Q.
Proof.
  apply (proj2 (scenario_four_waypoints Js.Rejected ltac:(reflexivity))).
Defined.

(** C6.  When the answer carries at least one route, the path becomes the
    coordinate list of the first route's geometry with each [lon, lat]
    pair flipped to [lat, lon]: as many points, in the service's order. *)
Theorem fetchRoadShape_flips_geometry
    (waypoints : list Location) (d : MapComponent.OsrmData)
    (r : MapComponent.OsrmRoute) (rest : list MapComponent.OsrmRoute)
    (g : MapComponent.Geometry) (cs : list (Q * Q)) (s : MapComponent.State) :
  MapComponent.routes d = Some (r :: rest) ->
  MapComponent.geometry r = Some g ->
  MapComponent.coordinates g = Some cs ->
  let path := MapComponent.routePath
    (Js.exec (MapComponent.fetchRoadShape waypoints (Js.Resolved (Some d))) s) in
  path = map (fun coord => (Number (snd coord), Number (fst coord))) cs /\
  length path = length cs /\
  forall (i : nat) (lon lat : Q),
    path !! i = Some (Number lat, Number lon) <-> cs !! i = Some (lon, lat).
Proof.
  intros Hr Hg Hc path. unfold path.
  rewrite (fetchRoadShape_success waypoints d r rest g cs s Hr Hg Hc). cbn.
  split; [reflexivity|]. split; [apply length_map|].
  intros i lo la. unfold flipped.
  change (map ?f ?l) with (f <$> l). rewrite list_lookup_fmap.
  destruct (cs !! i) as [[lo' la']|]; cbn; [|done].
  split; intros [= -> ->]; done.
Qed.

Lemma fetchRoadShape_flips_geometry_witness :
  MapComponent.routePath
    (Js.exec (MapComponent.fetchRoadShape
                [Scenario.depot; Scenario.pickup]
                (roadAnswer Scenario.roadB [])) MapComponent.initial)
  = [ (25.1825, 75.8236); (25.19, 75.84); (25.20, 75.85) ]%Q.
Proof.
  apply (proj1 (fetchRoadShape_flips_geometry
    [Scenario.depot; Scenario.pickup]
    {| MapComponent.routes := Some
         [ {| MapComponent.geometry :=
                Some {| MapComponent.coordinates := Some Scenario.roadB |} |} ] |}
    {| MapComponent.geometry :=
         Some {| MapComponent.coordinates := Some Scenario.roadB |} |}
    []
    {| MapComponent.coordinates := Some Scenario.roadB |}
    Scenario.roadB MapComponent.initial
    ltac:(reflexivity) ltac:(reflexivity) ltac:(reflexivity))).
Defined.

(** ** Fetching the orders *)

Section FetchLive.

Import App.

Lemma pure_ret {S A} (a : A) : pure (Js.ret (S := S) a).
Proof. by exists (Some a). Qed.

Lemma pure_throw {S A} : pure (Js.throw (S := S) (A := A)).
Proof. by exists None. Qed.

Lemma pure_bind {S A B} (m : Js.M S A) (k : A -> Js.M S B) :
  pure m -> (forall a, pure (k a)) -> pure (Js.bind m k).
Proof.
  intros [[a|] Hm] Hk.
  - destruct (Hk a) as [r Hr]. exists r. intros s.
    unfold Js.bind. by rewrite Hm.
  - exists None. intros s. unfold Js.bind. by rewrite Hm.
Qed.

Lemma pure_deref {S A} (o : option A) : pure (Js.deref (S := S) o).
Proof. destruct o; [apply pure_ret | apply pure_throw]. Qed.

Lemma compareOrders_pure (a b : Order) : pure (compareOrders a b).
Proof.
  unfold compareOrders.
  repeat (apply pure_bind; [apply pure_deref | intros ?]). apply pure_ret.
Qed.

Lemma insertOrder_pure (x : Order) (l : list Order) : pure (insertOrder x l).
Proof.
  induction l as [|y l IH]; cbn [insertOrder]; [apply pure_ret|].
  apply pure_bind; [apply compareOrders_pure | intros c].
  destruct (c <=? 0)%Z; [apply pure_ret|].
  apply pure_bind; [apply IH | intros r; apply pure_ret].
Qed.

Lemma sortOrders_pure (l : list Order) : pure (sortOrders l).
Proof.
  induction l as [|x l IH]; cbn [sortOrders]; [apply pure_ret|].
  apply pure_bind; [apply IH | intros r; apply insertOrder_pure].
Qed.

(** When the [try] block raises, it has set the vehicle and nothing
    else. *)
Lemma handleFetchLive_try_raises (response : Js.AxiosResult App.Body)
    (s : State) :
  fetchFails response ->
  handleFetchLive_try response s = (None, setVehicle (Some myVehicle) s).
Proof.
  unfold fetchFails, handleFetchLive_try, Js.bind, Js.modify.
  destruct response as [|[|[]|liveOrders]]; cbn; [done..|].
  destruct (length liveOrders =? 0)%nat; [done|].
  destruct (sortOrders_pure liveOrders) as [[sorted|] Hsort];
    rewrite !Hsort; [done | done].
Qed.

End FetchLive.

(** C8, as stated, fails: on the optimized dashboard a failed fetch does
    not leave orders, route, vehicle and distance all as they were (the
    route is gone). *)
Lemma failed_fetch_clears_route :
  let s' := Js.exec (App.handleFetchLive Js.Rejected) Scenario.optimized in
  ~ (App.orders s' = App.orders Scenario.optimized /\
     App.route s' = App.route Scenario.optimized /\
     App.vehicle s' = App.vehicle Scenario.optimized /\
     App.distance s' = App.distance Scenario.optimized).
Proof. cbn. intros (_ & H & _). discriminate H. Qed.

(** C8, amended.  When the fetch fails, [handleFetchLive] shows the
    message "Failed to fetch orders. Is backend running?" and leaves the
    orders and the distance as they were; the route has been reset to
    [null] and the vehicle set to the driver's vehicle before the request
    went out, and loading is off again. *)
Theorem handleFetchLive_failure (response : Js.AxiosResult App.Body)
    (s : App.State) :
  fetchFails response ->
  Js.exec (App.handleFetchLive response) s =
  {| App.vehicle := Some App.myVehicle;
     App.orders := App.orders s;
     App.route := None;
     App.distance := App.distance s;
     App.loading := false;
     App.error := Some "Failed to fetch orders. Is backend running?";
     App.darkMode := App.darkMode s |}.
Proof.
  intros Hf. unfold Js.exec, App.handleFetchLive, Js.bind, Js.tryCatch, Js.modify.
  cbn beta iota. by rewrite handleFetchLive_try_raises.
Qed.

Lemma handleFetchLive_failure_witness :
  Js.exec (App.handleFetchLive Js.Rejected) Scenario.optimized =
  {| App.vehicle := Some App.myVehicle;
     App.orders := [Scenario.order1];
     App.route := None;
     App.distance := App.DistanceText "12.40";
     App.loading := false;
     App.error := Some "Failed to fetch orders. Is backend running?";
     App.darkMode := true |}.
Proof.
  apply (handleFetchLive_failure Js.Rejected Scenario.optimized
           ltac:(reflexivity)).
Defined.

(** A fetch also fails when the answer has two or more orders and one of
    them has no [pickup_window]: the comparator raises. *)
Lemma fetchFails_missing_window (o : Order) :
  pickup_window o = None ->
  fetchFails (Js.Resolved (App.OrdersBody [Scenario.order1; o])).
Proof.
  destruct o as [i d n p q w]. cbn. intros ->. reflexivity.
Qed.

(** * Further properties of the dashboard *)

(** ** Sorting the fetched orders *)

Section Sorting.

Import App.

Implicit Types (l : list Order) (s : State) (x y o : Order).

Lemma hasWindow_dec o : {hasWindow o} + {pickup_window o = None}.
Proof. unfold hasWindow. destruct (pickup_window o); [by left | by right]. Qed.

Lemma compareOrders_ok x y s :
  hasWindow x -> hasWindow y ->
  compareOrders x y s = (Some (deadline x - deadline y)%Z, s).
Proof.
  unfold hasWindow, compareOrders, deadline, Js.bind.
  destruct (pickup_window x), (pickup_window y); done.
Qed.

Lemma compareOrders_raises x y s :
  pickup_window x = None \/ pickup_window y = None ->
  compareOrders x y s = (None, s).
Proof.
  unfold compareOrders, Js.bind.
  destruct (pickup_window x), (pickup_window y); cbn; intros [H | H]; done.
Qed.

Lemma insertOrder_raises x y l s :
  pickup_window x = None \/ pickup_window y = None ->
  insertOrder x (y :: l) s = (None, s).
Proof.
  intros H. cbn [insertOrder]. unfold Js.bind at 1.
  by rewrite compareOrders_raises.
Qed.

Lemma insertOrder_ok x l s :
  hasWindow x -> Forall hasWindow l -> StronglySorted byDeadline l ->
  exists l', insertOrder x l s = (Some l', s) /\ x :: l ≡ₚ l' /\
             StronglySorted byDeadline l'.
Proof.
  intros Hx. induction l as [|y l IH]; intros Hl Hs.
  - exists [x]. repeat split; [done|]. by repeat constructor.
  - apply Forall_cons in Hl as [Hy Hl].
    apply StronglySorted_inv in Hs as [Hs Hyl].
    cbn [insertOrder]. unfold Js.bind at 1. rewrite compareOrders_ok by done.
    destruct (Z.leb_spec (deadline x - deadline y) 0) as [Hle | Hgt].
    + exists (x :: y :: l). repeat split; [done|].
      constructor; [by constructor|].
      constructor; [unfold byDeadline; lia|].
      eapply Forall_impl; [exact Hyl|]. unfold byDeadline. intros; cbn in *; lia.
    + destruct (IH Hl Hs) as (r & Hr & Hperm & Hsorted).
      exists (y :: r). unfold Js.bind. rewrite Hr. repeat split.
      * rewrite <- Hperm. apply Permutation_swap.
      * constructor; [done|]. rewrite <- Hperm.
        constructor; [unfold byDeadline; lia | done].
Qed.

Lemma sortOrders_ok l s :
  Forall hasWindow l ->
  exists l', sortOrders l s = (Some l', s) /\ l ≡ₚ l' /\
             StronglySorted byDeadline l'.
Proof.
  induction l as [|x l IH]; intros Hl.
  - exists []. repeat split; [done | constructor].
  - apply Forall_cons in Hl as [Hx Hl].
    destruct (IH Hl) as (r & Hr & Hperm & Hsorted).
    destruct (insertOrder_ok x r s Hx) as (l' & Hl' & Hperm' & Hsorted');
      [by rewrite <- Hperm | done |].
    exists l'. cbn [sortOrders]. unfold Js.bind. rewrite Hr. repeat split;
      [done | | done]. by rewrite <- Hperm', <- Hperm.
Qed.

Lemma sortOrders_raises l s :
  (2 <= length l)%nat -> (exists o, o ∈ l /\ pickup_window o = None) ->
  sortOrders l s = (None, s).
Proof.
  induction l as [|x l IH]; intros Hlen (o & Ho & Hw); [cbn in Hlen; lia|].
  destruct l as [|y l]; [cbn in Hlen; lia|].
  cbn [sortOrders] in *. unfold Js.bind at 1.
  destruct (decide (Exists (fun o => pickup_window o = None) (y :: l)))
    as [He | Hne].
  - apply Exists_exists in He.
    destruct l as [|z l].
    + destruct He as (o' & [-> | []%elem_of_nil]%elem_of_cons & Hw').
      cbn. by apply insertOrder_raises; right.
    + rewrite IH; [done | cbn; lia | done].
  - assert (Hall : Forall hasWindow (y :: l)).
    { apply Forall_forall. intros o' Ho'. destruct (hasWindow_dec o'); [done|].
      exfalso. apply Hne, Exists_exists. eauto. }
    assert (pickup_window x = None) as Hx.
    { apply elem_of_cons in Ho as [-> | Ho]; [done|].
      exfalso. apply Hne, Exists_exists. eauto. }
    destruct (sortOrders_ok (y :: l) s Hall) as (r & Hr & Hperm & _).
    cbn [sortOrders] in Hr. rewrite Hr.
    destruct r as [|y' r]; [by apply Permutation_nil_r in Hperm|].
    by apply insertOrder_raises; left.
Qed.

(** What the [try] block of [handleFetchLive] does with an answer. *)
Lemma handleFetchLive_try_empty s :
  handleFetchLive_try (Js.Resolved (OrdersBody [])) s =
  (Some tt,
   setOrders []
     (setError (Some "No active orders found. Go to /customer to create one!")
        (setVehicle (Some myVehicle) s))).
Proof. reflexivity. Qed.

Lemma handleFetchLive_try_single x s :
  handleFetchLive_try (Js.Resolved (OrdersBody [x])) s =
  (Some tt, setOrders [x] (setVehicle (Some myVehicle) s)).
Proof. reflexivity. Qed.

Lemma handleFetchLive_try_sorted x l s :
  Forall hasWindow (x :: l) ->
  exists sorted,
    handleFetchLive_try (Js.Resolved (OrdersBody (x :: l))) s =
      (Some tt, setOrders sorted (setVehicle (Some myVehicle) s)) /\
    x :: l ≡ₚ sorted /\ StronglySorted byDeadline sorted.
Proof.
  intros Hl.
  destruct (sortOrders_ok (x :: l) (setVehicle (Some myVehicle) s) Hl)
    as (sorted & Hs & Hperm & Hsorted).
  exists sorted. split; [|done].
  unfold handleFetchLive_try, Js.bind, Js.modify. cbn -[sortOrders].
  by rewrite Hs.
Qed.

Lemma handleFetchLive_try_unsorted l s :
  (2 <= length l)%nat -> (exists o, o ∈ l /\ pickup_window o = None) ->
  handleFetchLive_try (Js.Resolved (OrdersBody l)) s
  = (None, setVehicle (Some myVehicle) s).
Proof.
  intros Hlen Hw. unfold handleFetchLive_try, Js.bind, Js.modify.
  cbn -[sortOrders]. destruct l as [|x l]; [cbn in Hlen; lia|].
  cbn -[sortOrders]. by rewrite sortOrders_raises.
Qed.

(** Every answer falls in one of these cases. *)
Lemma answer_cases l :
  l = [] \/ (exists x, l = [x]) \/
  (l <> [] /\ Forall hasWindow l) \/
  ((2 <= length l)%nat /\ exists o, o ∈ l /\ pickup_window o = None).
Proof.
  destruct l as [|x [|y l]]; [by left | right; left; by eexists |].
  destruct (decide (Exists (fun o => pickup_window o = None) (x :: y :: l)))
    as [He | Hne].
  - right; right; right. split; [cbn; lia|]. by apply Exists_exists.
  - right; right; left. split; [done|]. apply Forall_forall. intros o Ho.
    destruct (hasWindow_dec o); [done|]. exfalso. apply Hne, Exists_exists. eauto.
Qed.

End Sorting.

(** ** The handlers of the dashboard *)

Section Handlers.

Import App.

Implicit Types (l : list Order) (s : State).

Lemma handleFetchLive_exec response s r s' :
  handleFetchLive_try response
    (setError None (setRoute None (setLoading true s))) = (r, s') ->
  Js.exec (handleFetchLive response) s =
  setLoading false
    (match r with
     | Some _ => s'
     | None => setError (Some "Failed to fetch orders. Is backend running?") s'
     end).
Proof.
  intros H. unfold Js.exec, handleFetchLive, Js.bind, Js.tryCatch, Js.modify.
  cbn beta iota. rewrite H. by destruct r.
Qed.

(** The outcomes of [handleFetchLive]. *)
Lemma handleFetchLive_cases response s :
  (fetchFails response /\
   Js.exec (handleFetchLive response) s =
     afterFetch s (orders s) (Some "Failed to fetch orders. Is backend running?")) \/
  ((response = Js.Resolved (OrdersBody []) \/
    response = Js.Resolved (OtherBody true)) /\
   Js.exec (handleFetchLive response) s =
     afterFetch s []
       (Some "No active orders found. Go to /customer to create one!")) \/
  (exists l sorted,
     response = Js.Resolved (OrdersBody l) /\ l <> [] /\ l ≡ₚ sorted /\
     (Forall hasWindow l -> StronglySorted byDeadline sorted) /\
     Js.exec (handleFetchLive response) s = afterFetch s sorted None).
Proof.
  destruct response as [|[|[]|l]].
  - left. split; reflexivity.
  - left. split; reflexivity.
  - right; left. split; [by right | reflexivity].
  - left. split; reflexivity.
  - destruct (answer_cases l) as [-> | [[x ->] | [[Hne Hall] | [Hlen Hw]]]].
    + right; left. split; [by left | reflexivity].
    + right; right. exists [x], [x].
      split; [done|]. split; [done|]. split; [done|]. split; [|reflexivity].
      intros _. by repeat constructor.
    + right; right. destruct l as [|x l]; [done|].
      destruct (handleFetchLive_try_sorted x l
                  (setError None (setRoute None (setLoading true s))) Hall)
        as (sorted & Htry & Hperm & Hsorted).
      exists (x :: l), sorted.
      split; [done|]. split; [done|]. split; [done|]. split; [done|].
      by rewrite (handleFetchLive_exec _ _ _ _ Htry).
    + left. split.
      * unfold fetchFails. by rewrite handleFetchLive_try_unsorted.
      * by rewrite (handleFetchLive_exec _ _ _ _
                      (handleFetchLive_try_unsorted l _ Hlen Hw)).
Qed.

Lemma handleOptimize_guard kmText response s :
  vehicle s = None \/ orders s = [] ->
  handleOptimize kmText response s =
  (Some tt, setError (Some "No orders to optimize. Fetch live data first.") s).
Proof.
  intros H. unfold handleOptimize.
  destruct H as [-> | ->]; [done|]. by rewrite orb_true_r.
Qed.

Lemma handleOptimize_passes kmText response s v :
  vehicle s = Some v -> orders s <> [] ->
  handleOptimize kmText response s =
  match response with
  | Js.Resolved (Some data) =>
      (Some tt,
       setLoading false
         (setDistance (DistanceText (kmText (total_distance data)))
            (setRoute (opt_route data) (setError None (setLoading true s)))))
  | _ =>
      (Some tt,
       setLoading false
         (setError (Some "Optimization failed. Backend error.")
            (setError None (setLoading true s))))
  end.
Proof.
  intros Hv Ho. unfold handleOptimize. rewrite Hv.
  destruct (orders s) as [|o l]; [done|]. cbn [length Nat.eqb orb].
  by destruct response as [|[d|]].
Qed.

End Handlers.

Lemma windows_do_not_fail (l : list Order) :
  l <> [] -> Forall hasWindow l -> ~ fetchFails (Js.Resolved (App.OrdersBody l)).
Proof.
  intros Hne Hall Hf. destruct l as [|x l]; [done|].
  destruct (handleFetchLive_try_sorted x l App.initial Hall) as (r & Hr & _).
  unfold fetchFails in Hf. by rewrite Hr in Hf.
Qed.

(** X1.  A non-empty answer in which every order has a pickup window is
    stored sorted by deadline (the end of the window), earliest first, and
    holds the same orders; the message is cleared, the route is gone. *)
Theorem handleFetchLive_sorts (l : list Order) (s : App.State) :
  l <> [] -> Forall hasWindow l ->
  exists sorted,
    Js.exec (App.handleFetchLive (Js.Resolved (App.OrdersBody l))) s
      = afterFetch s sorted None /\
    l ≡ₚ sorted /\ StronglySorted byDeadline sorted.
Proof.
  intros Hne Hall.
  destruct (handleFetchLive_cases (Js.Resolved (App.OrdersBody l)) s)
    as [[Hf _] | [[[[= ->] | [=]] _]
                 | (l' & sorted & [= <-] & _ & Hperm & Hs & He)]].
  - by apply windows_do_not_fail in Hf.
  - done.
  - exists sorted. auto.
Qed.

Lemma handleFetchLive_sorts_witness :
  exists sorted,
    Js.exec (App.handleFetchLive
           (Js.Resolved (App.OrdersBody [Scenario.order1; Scenario.order3])))
      App.initial = afterFetch App.initial sorted None /\
    [Scenario.order1; Scenario.order3] ≡ₚ sorted /\
    StronglySorted byDeadline sorted.
Proof.
  apply (handleFetchLive_sorts [Scenario.order1; Scenario.order3] App.initial
           ltac:(discriminate)
           ltac:(repeat constructor; discriminate)).
Defined.

(** X2.  Whatever the answer, after [handleFetchLive] the route is null,
    the vehicle is the driver's, loading is off, and distance and theme
    are as before; an empty answer empties the order list and shows the
    "No active orders" message. *)
Theorem handleFetchLive_always (response : Js.AxiosResult App.Body)
    (s : App.State) :
  let s' := Js.exec (App.handleFetchLive response) s in
  (App.route s' = None /\ App.vehicle s' = Some App.myVehicle /\
   App.loading s' = false /\ App.distance s' = App.distance s /\
   App.darkMode s' = App.darkMode s) /\
  Js.exec (App.handleFetchLive (Js.Resolved (App.OrdersBody []))) s =
    afterFetch s [] (Some "No active orders found. Go to /customer to create one!").
Proof.
  cbn zeta. split; [|reflexivity].
  destruct (handleFetchLive_cases response s)
    as [[_ ->] | [[_ ->] | (l & sorted & _ & _ & _ & _ & ->)]]; by repeat split.
Qed.

(** X3.  The fetch fails exactly when the request is rejected, or the
    body of the answer is null, or it is not an array and its length is
    not 0, or it is an array of two or more orders one of which has no
    pickup window (the comparator of the sort raises); a single order
    without a window is accepted, and so is a body that is not an array
    but has length 0 (an empty text). *)
Theorem fetchFails_iff (response : Js.AxiosResult App.Body) :
  fetchFails response <->
  response = Js.Rejected \/
  response = Js.Resolved App.NullBody \/
  response = Js.Resolved (App.OtherBody false) \/
  exists l, response = Js.Resolved (App.OrdersBody l) /\ (2 <= length l)%nat /\
            exists o, o ∈ l /\ pickup_window o = None.
Proof.
  split.
  - intros Hf. destruct response as [|[|[]|l]];
      [by left | by right; left | done | by right; right; left |].
    right; right; right. exists l. split; [done|]. unfold fetchFails in Hf.
    destruct (answer_cases l) as [-> | [[x ->] | [[Hne Hall] | H]]];
      [done | done | | done].
    destruct l as [|x l]; [done|].
    destruct (handleFetchLive_try_sorted x l App.initial Hall) as (r & Hr & _).
    by rewrite Hr in Hf.
  - intros [-> | [-> | [-> | (l & -> & Hlen & Hw)]]]; [reflexivity..|].
    unfold fetchFails. by rewrite handleFetchLive_try_unsorted.
Qed.

(** X4.  Without a vehicle or without orders, [handleOptimize] only shows
    its guidance message: nothing else changes, whatever the optimizer
    would have answered. *)
Theorem handleOptimize_rejects_early (kmText : Q -> string)
    (response : Js.AxiosResult (option App.OptimizeData)) (s : App.State) :
  App.vehicle s = None \/ App.orders s = [] ->
  Js.exec (App.handleOptimize kmText response) s =
  {| App.vehicle := App.vehicle s; App.orders := App.orders s;
     App.route := App.route s; App.distance := App.distance s;
     App.loading := App.loading s;
     App.error := Some "No orders to optimize. Fetch live data first.";
     App.darkMode := App.darkMode s |}.
Proof. intros H. unfold Js.exec. by rewrite handleOptimize_guard. Qed.

Lemma handleOptimize_rejects_early_witness :
  Js.exec (App.handleOptimize (fun _ => "12.40") Scenario.optimizerAnswer)
    App.initial =
  {| App.vehicle := None; App.orders := []; App.route := None;
     App.distance := App.DistanceNumber 0; App.loading := false;
     App.error := Some "No orders to optimize. Fetch live data first.";
     App.darkMode := true |}.
Proof.
  apply (handleOptimize_rejects_early (fun _ => "12.40")
           Scenario.optimizerAnswer App.initial (or_introl eq_refl)).
Defined.

(** X5.  When the optimization request fails (rejected, or an answer
    without a body), the message "Optimization failed. Backend error." is
    shown and vehicle, orders, route and distance stay as they were. *)
Theorem handleOptimize_failure (kmText : Q -> string)
    (response : Js.AxiosResult (option App.OptimizeData))
    (s : App.State) (v : Vehicle) :
  App.vehicle s = Some v -> App.orders s <> [] ->
  response = Js.Rejected \/ response = Js.Resolved None ->
  Js.exec (App.handleOptimize kmText response) s =
  {| App.vehicle := App.vehicle s; App.orders := App.orders s;
     App.route := App.route s; App.distance := App.distance s;
     App.loading := false;
     App.error := Some "Optimization failed. Backend error.";
     App.darkMode := App.darkMode s |}.
Proof.
  intros Hv Ho Hr. unfold Js.exec.
  rewrite (handleOptimize_passes kmText response s v Hv Ho).
  by destruct Hr as [-> | ->].
Qed.

Lemma handleOptimize_failure_witness :
  Js.exec (App.handleOptimize (fun _ => "12.40") Js.Rejected) Scenario.optimized =
  {| App.vehicle := Some App.myVehicle; App.orders := [Scenario.order1];
     App.route := Some Scenario.stops;
     App.distance := App.DistanceText "12.40";
     App.loading := false;
     App.error := Some "Optimization failed. Backend error.";
     App.darkMode := true |}.
Proof.
  apply (handleOptimize_failure (fun _ => "12.40") Js.Rejected Scenario.optimized
           App.myVehicle eq_refl ltac:(discriminate) (or_introl eq_refl)).
Defined.



(** ** What holds between two user actions *)

Lemma omap_length_le {A B} (f : A -> option B) (l : list A) :
  (length (omap f l) <= length l)%nat.
Proof.
  induction l as [|x l IH]; [done|]. cbn. destruct (f x); cbn; lia.
Qed.

Section Dashboard.

Import App.

Variable kmText : Q -> string.

Lemma initial_invariant : dashboardInvariant initial.
Proof. by repeat split. Qed.

Lemma afterFetch_invariant s ords err :
  err <> Some "No orders to optimize. Fetch live data first." ->
  dashboardInvariant (afterFetch s ords err).
Proof. intros He. by repeat split. Qed.

Lemma step_invariant s e :
  dashboardInvariant s -> dashboardInvariant (step kmText s e).
Proof.
  intros (Hl & Hv & Hr & He). destruct e as [response | response |]; cbn.
  - rewrite Hl. cbn.
    destruct (handleFetchLive_cases response s)
      as [[_ ->] | [[_ ->] | (l & sorted & _ & _ & _ & _ & ->)]];
      by apply afterFetch_invariant.
  - rewrite Hl. cbn. destruct (orders s) as [|o l] eqn:Ho; cbn.
    + repeat split; [done | by rewrite Ho | by rewrite Ho | done].
    + unfold Js.exec.
      rewrite (handleOptimize_passes kmText response s myVehicle)
        by (rewrite ?Ho; auto; done).
      destruct response as [|[d|]];
        unfold dashboardInvariant, setLoading, setError, setRoute, setDistance;
        cbn; rewrite ?Ho; (split; [|split; [|split]]); auto; done.
  - unfold dashboardInvariant, setDarkMode. cbn. auto.
Qed.

Lemma run_invariant events s :
  dashboardInvariant s -> dashboardInvariant (run kmText events s).
Proof.
  revert s. induction events as [|e events IH]; intros s Hs; [done|].
  cbn. by apply IH, step_invariant.
Qed.

End Dashboard.


(** X8.  Whenever the dashboard hands a route to the map, the lookup it
    hands over with it has the depot entry, so the waypoint list of the
    routing request starts with the driver's start location and is never
    empty. *)
Theorem route_comes_with_depot (kmText : Q -> string) (events : list App.Event)
    (r : list Stop) :
  App.route (App.run kmText events App.initial) = Some r ->
  let s := App.run kmText events App.initial in
  let locations := App.createLocationLookup (App.vehicle s) (App.orders s) in
  locations !! "DEPOT" = Some (start_location App.myVehicle) /\
  exists rest,
    MapComponent.extractWaypoints r locations
      = start_location App.myVehicle :: rest /\
    (length rest <= length r)%nat.
Proof.
  intros Hr s locations.
  destruct (run_invariant kmText events App.initial initial_invariant)
    as (_ & Hv & Ho & _).
  fold s in Hr, Hv, Ho.
  assert (Hd : locations !! "DEPOT" = Some (start_location App.myVehicle)).
  { unfold locations. rewrite Hv by (apply Ho; by rewrite Hr).
    unfold App.createLocationLookup. cbn zeta.
    rewrite forEach_lookup_depot by (rewrite !elem_of_cons; tauto).
    by simplify_map_eq. }
  split; [done|]. unfold MapComponent.extractWaypoints.
  rewrite (read_own _ _ _ Hd).
  eexists. split; [reflexivity|]. apply omap_length_le.
Qed.

Lemma route_comes_with_depot_witness :
  exists rest,
    MapComponent.extractWaypoints Scenario.stops
      (App.createLocationLookup (Some App.myVehicle) [Scenario.order1])
      = start_location App.myVehicle :: rest /\
    (length rest <= 3)%nat.
Proof.
  apply (proj2 (route_comes_with_depot (fun _ => "12.40")
    [ App.FetchLive (Js.Resolved (App.OrdersBody [Scenario.order1]));
      App.Optimize Scenario.optimizerAnswer ]
    Scenario.stops eq_refl)).
Defined.

(** X9.  Neither handler lets an exception escape, whatever the back end
    answers. *)
Theorem handlers_never_raise (kmText : Q -> string) (s : App.State) :
  (forall response, fst (App.handleFetchLive response s) = Some tt) /\
  (forall response, fst (App.handleOptimize kmText response s) = Some tt).
Proof.
  split; intros response.
  - unfold App.handleFetchLive, Js.bind, Js.tryCatch, Js.modify. cbn beta iota.
    by destruct (App.handleFetchLive_try response _) as [[[]|] s'].
  - unfold App.handleOptimize.
    destruct (_ || _); [done|].
    unfold Js.bind, Js.tryCatch, Js.modify. cbn beta iota.
    by destruct (App.handleOptimize_try kmText response _) as [[[]|] s'].
Qed.

(** ** The entries of the orders in the lookup *)

Section LookupValues.

Lemma list_ascii_append (s t : string) :
  String.list_ascii_of_string (s +:+ t) =
  (String.list_ascii_of_string s ++ String.list_ascii_of_string t)%list.
Proof.
  induction s as [|c s IH]; [done|].
  change (String c s +:+ t) with (String c (s +:+ t)). cbn. by rewrite IH.
Qed.

Lemma append_inj_r (u s t : string) : s +:+ u = t +:+ u -> s = t.
Proof.
  intros H. apply (f_equal String.list_ascii_of_string) in H.
  rewrite !list_ascii_append in H. apply app_inv_tail in H.
  apply (f_equal String.string_of_list_ascii) in H.
  by rewrite !String.string_of_list_ascii_of_string in H.
Qed.

Lemma pickup_key_not_delivery (s t : string) : s +:+ "_pickup" ≠ t +:+ "_delivery".
Proof.
  intros H. apply (f_equal String.list_ascii_of_string) in H.
  rewrite !list_ascii_append in H. apply (f_equal last) in H.
  rewrite !last_app in H. discriminate H.
Qed.

Lemma forEach_lookup_other (orders : list Order) (lookup : gmap string Location)
    (k : string) :
  (forall o, o ∈ orders -> k ≠ id o +:+ "_pickup" /\ k ≠ id o +:+ "_delivery") ->
  foldl App.addOrder lookup orders !! k = lookup !! k.
Proof.
  revert lookup. induction orders as [|x orders IH]; intros lookup Hk; [done|].
  cbn. rewrite IH by (intros o Ho; apply Hk; by right).
  destruct (Hk x) as [Hp Hd]; [by left|].
  unfold App.addOrder. cbn zeta. by rewrite !lookup_insert_ne.
Qed.

Lemma forEach_lookup_order (orders : list Order) (lookup : gmap string Location)
    (o : Order) :
  NoDup (id <$> orders) -> o ∈ orders ->
  foldl App.addOrder lookup orders !! (id o +:+ "_pickup")
    = Some (pickup_location o) /\
  foldl App.addOrder lookup orders !! (id o +:+ "_delivery")
    = Some (delivery_location o).
Proof.
  revert lookup. induction orders as [|x orders IH]; intros lookup Hnd Ho;
    [by apply elem_of_nil in Ho|].
  rewrite fmap_cons in Hnd. apply NoDup_cons in Hnd as [Hx Hnd].
  apply elem_of_cons in Ho as [-> | Ho]; [|by apply IH].
  assert (Hother : forall o, o ∈ orders -> id o ≠ id x).
  { intros o Ho E. apply Hx. rewrite <- E. by apply list_elem_of_fmap_2. }
  cbn. split.
  - rewrite forEach_lookup_other.
    + unfold App.addOrder. cbn zeta.
      rewrite lookup_insert_ne
        by (intros E; symmetry in E; by apply pickup_key_not_delivery in E).
      by rewrite lookup_insert_eq.
    + intros o Ho. split.
      * intros E%append_inj_r. by apply (Hother o).
      * apply pickup_key_not_delivery.
  - rewrite forEach_lookup_other.
    + unfold App.addOrder. cbn zeta. by rewrite lookup_insert_eq.
    + intros o Ho. split.
      * intros E. symmetry in E. by apply pickup_key_not_delivery in E.
      * intros E%append_inj_r. by apply (Hother o).
Qed.

End LookupValues.

(** X10.  When the orders have distinct ids, the lookup maps the pickup
    key of every order to its pickup location and its delivery key to its
    delivery location, with or without a vehicle. *)
Theorem createLocationLookup_order_entries (v : option Vehicle)
    (orders : list Order) (o : Order) :
  NoDup (id <$> orders) -> o ∈ orders ->
  App.createLocationLookup v orders !! (id o +:+ "_pickup")
    = Some (pickup_location o) /\
  App.createLocationLookup v orders !! (id o +:+ "_delivery")
    = Some (delivery_location o).
Proof.
  intros Hnd Ho. unfold App.createLocationLookup. cbn zeta.
  by apply forEach_lookup_order.
Qed.

Lemma createLocationLookup_order_entries_witness :
  App.createLocationLookup (Some App.myVehicle)
      [Scenario.order1; Scenario.order3] !! "order3_pickup"
    = Some Scenario.delivery /\
  App.createLocationLookup (Some App.myVehicle)
      [Scenario.order1; Scenario.order3] !! "order3_delivery"
    = Some Scenario.pickup.
Proof.
  apply (createLocationLookup_order_entries (Some App.myVehicle)
           [Scenario.order1; Scenario.order3] Scenario.order3).
  - cbn. apply NoDup_cons. split; [|apply NoDup_singleton].
    intros H%list_elem_of_singleton. discriminate H.
  - right. left.
Defined.

(** ** Urgency, cards and titles *)

(** X11.  An order with less time left is never shown as less urgent: if
    the later deadline is critical so is the earlier, and if the earlier is
    normal so is the later. *)
Theorem getOrderStyle_monotone (darkMode : bool) (m1 m2 : Z) :
  (m1 <= m2)%Z ->
  (App.getOrderStyle darkMode m2 = App.tierStyle darkMode App.CRITICAL ->
   App.getOrderStyle darkMode m1 = App.tierStyle darkMode App.CRITICAL) /\
  (App.getOrderStyle darkMode m1 = App.tierStyle darkMode App.NORMAL ->
   App.getOrderStyle darkMode m2 = App.tierStyle darkMode App.NORMAL).
Proof.
  intros Hle.
  destruct (getOrderStyle_cases darkMode m1) as [[H1 ->] | [[H1 ->] | [H1 ->]]];
  destruct (getOrderStyle_cases darkMode m2) as [[H2 ->] | [[H2 ->] | [H2 ->]]];
    split; intros E; try done; try lia;
    apply tierStyle_inj in E; discriminate E.
Qed.

Lemma getOrderStyle_monotone_witness :
  (App.getOrderStyle true 200 = App.tierStyle true App.CRITICAL ->
   App.getOrderStyle true 90 = App.tierStyle true App.CRITICAL) /\
  (App.getOrderStyle true 90 = App.tierStyle true App.NORMAL ->
   App.getOrderStyle true 200 = App.tierStyle true App.NORMAL).
Proof. apply (getOrderStyle_monotone true 90 200 ltac:(lia)). Defined.

(** X12.  The theme does not change the tier: the border and the
    animation of the style are the same in the dark and in the light
    theme, and the style is a given tier's in one exactly when it is in
    the other. *)
Theorem getOrderStyle_theme_independent (m : Z) (t : App.UrgencyTier) :
  App.borderLeft (App.getOrderStyle true m)
    = App.borderLeft (App.getOrderStyle false m) /\
  App.animation (App.getOrderStyle true m)
    = App.animation (App.getOrderStyle false m) /\
  (App.getOrderStyle true m = App.tierStyle true t <->
   App.getOrderStyle false m = App.tierStyle false t).
Proof.
  destruct (getOrderStyle_cases true m) as [[H1 E1] | [[H1 E1] | [H1 E1]]];
  destruct (getOrderStyle_cases false m) as [[H2 E2] | [[H2 E2] | [H2 E2]]];
    try lia; rewrite E1, E2; (split; [done|]; split; [done|]);
    split; intros E%tierStyle_inj; by subst.
Qed.

(** X13.  The CRITICAL badge of a card and its style agree: the card is
    flagged critical exactly when it has the critical style, which is
    exactly when it pulses. *)
Theorem orderCard_badge_matches_style (darkMode : bool) (order : Order) :
  let card := App.orderCard darkMode order in
  (App.isCritical card = true <->
   App.cardStyle card = App.tierStyle darkMode App.CRITICAL) /\
  (App.isCritical card = true <->
   App.animation (App.cardStyle card) = Some "pulse 2s infinite").
Proof.
  cbn zeta. unfold App.orderCard. cbn [App.isCritical App.cardStyle].
  set (m := match pickup_window order with Some w => end_ w | None => 999%Z end).
  rewrite Z.leb_le.
  destruct (getOrderStyle_cases darkMode m) as [[H ->] | [[H ->] | [H ->]]];
    split; split; intros E; try done; try lia;
    try (apply tierStyle_inj in E; discriminate E); discriminate E.
Qed.

Lemma StronglySorted_lookup {A} (R : A -> A -> Prop) (l : list A)
    (i j : nat) (x y : A) :
  StronglySorted R l -> (i < j)%nat ->
  l !! i = Some x -> l !! j = Some y -> R x y.
Proof.
  intros Hs. revert i j. induction Hs as [|a l Hs IH Ha]; intros i j Hij Hi Hj;
    [done|].
  destruct j as [|j]; [lia|]. destruct i as [|i].
  - cbn in Hi, Hj. injection Hi as <-.
    eapply Forall_forall; [exact Ha|]. by eapply list_elem_of_lookup_2.
  - cbn in Hi, Hj. apply (IH i j); [lia | done | done].
Qed.

Lemma minutesLeft_deadline (darkMode : bool) (o : Order) :
  hasWindow o -> App.minutesLeft (App.orderCard darkMode o) = deadline o.
Proof.
  unfold hasWindow, App.orderCard, deadline. cbn. by destruct (pickup_window o).
Qed.

(** X14.  After a fetch whose orders all have a pickup window, the cards
    of the order list are in ascending order of minutes left, so no
    critical card comes after a card that is not critical. *)
Theorem fetched_cards_by_urgency (darkMode : bool) (l : list Order)
    (s : App.State) (i j : nat) (ci cj : App.OrderCard) :
  l <> [] -> Forall hasWindow l -> (i <= j)%nat ->
  App.orderCards darkMode
    (App.orders
       (Js.exec (App.handleFetchLive (Js.Resolved (App.OrdersBody l))) s)) !! i
    = Some ci ->
  App.orderCards darkMode
    (App.orders
       (Js.exec (App.handleFetchLive (Js.Resolved (App.OrdersBody l))) s)) !! j
    = Some cj ->
  (App.minutesLeft ci <= App.minutesLeft cj)%Z /\
  (App.isCritical cj = true -> App.isCritical ci = true).
Proof.
  intros Hne Hall Hij.
  destruct (handleFetchLive_cases (Js.Resolved (App.OrdersBody l)) s)
    as [[Hf _] | [[[[= ->] | [=]] _]
                 | (l' & sorted & [= <-] & _ & Hperm & Hs & ->)]];
    [by apply windows_do_not_fail in Hf | done |].
  cbn [afterFetch App.orders]. unfold App.orderCards.
  change (map ?f ?x) with (f <$> x). rewrite !list_lookup_fmap.
  destruct (sorted !! i) as [oi|] eqn:Hi; [|done].
  destruct (sorted !! j) as [oj|] eqn:Hj; [|done].
  cbn. intros [= <-] [= <-].
  assert (Hw : Forall hasWindow sorted) by by rewrite <- Hperm.
  assert (Hle : (deadline oi <= deadline oj)%Z).
  { destruct (decide (i = j)) as [-> | Hne'].
    - rewrite Hi in Hj. injection Hj as ->. lia.
    - apply (StronglySorted_lookup byDeadline sorted i j); auto. lia. }
  rewrite <- (minutesLeft_deadline darkMode oi) in Hle
    by (eapply Forall_forall; [exact Hw | by eapply list_elem_of_lookup_2]).
  rewrite <- (minutesLeft_deadline darkMode oj) in Hle
    by (eapply Forall_forall; [exact Hw | by eapply list_elem_of_lookup_2]).
  split; [done|]. unfold App.orderCard in *. cbn in *.
  rewrite !Z.leb_le. lia.
Qed.

Lemma fetched_cards_by_urgency_witness :
  (30 <= 90)%Z /\ (true = true -> true = true).
Proof.
  apply (fetched_cards_by_urgency true [Scenario.order1; Scenario.order3]
           App.initial 0 1
           (App.orderCard true Scenario.order3)
           (App.orderCard true Scenario.order1)
           ltac:(discriminate) ltac:(repeat constructor; discriminate)
           ltac:(lia) eq_refl eq_refl).
Defined.

(** X15.  The title of a card shows at most the first four characters of
    the order id: the whole id when it has four characters or fewer, a
    prefix of it otherwise. *)
Theorem orderTitle_prefix (order : Order) :
  exists shown,
    App.orderTitle order = "Order #" +:+ shown /\
    (String.length shown <= 4)%nat /\
    String.prefix shown (id order) = true /\
    ((String.length (id order) <= 4)%nat -> shown = id order).
Proof.
  exists (String.substring 0 4 (id order)). split; [reflexivity|].
  destruct (id order) as [|c1 [|c2 [|c3 [|c4 [|c5 rest]]]]];
    (split; [cbn; lia|]); (split; [by apply String.prefix_correct|]);
    cbn; intros H; (reflexivity || lia).
Qed.

(** * Further properties of the map component *)

Section MapExtras.

Import MapComponent.

Implicit Types (s : State) (e : Event) (events : list Event)
  (m : LeafletMap) (a : Arrows).

Lemma step_issued s e :
  issued (step s e) = (issued s + if launches e then 1 else 0)%nat.
Proof.
  destruct e as [route locations | request response]; cbn [step launches].
  - unfold routeEffect. destruct route as [[|p route]|]; [cbn; lia | | cbn; lia].
    set (n := length (extractWaypoints (p :: route) locations)).
    destruct (Nat.ltb_spec n 2), (Nat.leb_spec 2 n); cbn; lia.
  - destruct (settle_inflight request response s) as [_ ->]. lia.
Qed.


Lemma arrowsCleanup_stamp c m : stamp (arrowsCleanup c m) = stamp m.
Proof. by destruct c. Qed.

(** What a mounted [RouteArrows] keeps true of the map it was given. *)
Lemma arrows_invariant (m0 : LeafletMap) (events : list Lifecycle) :
  stamped m0 ->
  let a := arrowsRun events {| arrowsMap := m0; cleanup := None |} in
  (stamp m0 <= stamp (arrowsMap a))%nat /\
  match cleanup a with
  | None => layers (arrowsMap a) = layers m0
  | Some d =>
      (stamp m0 <= d < stamp (arrowsMap a))%nat /\
      exists positions, layers (arrowsMap a) = <[d := positions]> (layers m0)
  end /\
  match shown events with
  | Some positions =>
      exists d, cleanup a = Some d /\
                layers (arrowsMap a) = <[d := positions]> (layers m0)
  | None => cleanup a = None
  end.
Proof.
  intros Hm0. induction events as [|e events IH] using rev_ind; [by cbn|].
  unfold arrowsRun in *. rewrite foldl_app. cbn [foldl].
  cbn zeta in IH. set (a := foldl arrowsStep _ events) in *.
  destruct IH as (Hst & Hc & _).
  assert (Hclean : layers (arrowsCleanup (cleanup a) (arrowsMap a)) = layers m0).
  { destruct (cleanup a) as [d|]; [|done].
    destruct Hc as [Hd [positions Hl]]. cbn. rewrite Hl.
    apply delete_insert_id. destruct (layers m0 !! d) eqn:E; [|done].
    assert (d < stamp m0)%nat by (apply Hm0; by eexists). lia. }
  unfold shown. rewrite last_snoc.
  destruct e as [[[|p positions]|]|]; cbn;
    rewrite ?arrowsCleanup_stamp, ?Hclean; try done.
  split; [lia|]. split; [split; [lia | by eexists] | by eexists].
Qed.

End MapExtras.

(** X16.  If the routing service answers with exactly the coordinates the
    request listed (longitude first, one pair per waypoint, in order), the
    path drawn is the straight line through the waypoints: the same path
    as the fallback. *)
Theorem echoed_request_is_straight_line (s : MapComponent.State) (request : nat)
    (waypoints : list Location) (cs : list (Q * Q))
    (rest : list MapComponent.OsrmRoute) :
  MapComponent.inflight s !! request = Some waypoints ->
  MapComponent.coordinatesString waypoints = numbers cs ->
  length (MapComponent.coordinatesString waypoints) = length waypoints /\
  MapComponent.routePath
    (MapComponent.settle request (roadAnswer cs rest) s)
  = straightLine waypoints /\
  MapComponent.routePath (MapComponent.settle request Js.Rejected s)
  = straightLine waypoints.
Proof.
  intros Hin Hcs. split; [apply length_map|]. split.
  - rewrite (settle_routePath_road request waypoints) by done.
    apply (f_equal (map (fun c : Num * Num => (snd c, fst c)))) in Hcs.
    unfold MapComponent.coordinatesString, numbers in Hcs.
    rewrite !map_map in Hcs. cbn in Hcs.
    unfold flipped, straightLine. by rewrite <- Hcs.
  - by apply settle_routePath_raises.
Qed.

Lemma echoed_request_is_straight_line_witness :
  MapComponent.routePath
    (MapComponent.settle 0
       (roadAnswer [ (75.8236, 25.1825); (75.85, 25.20) ]%Q [])
       (MapComponent.launch [Scenario.depot; Scenario.pickup] MapComponent.initial))
  = [ (25.1825, 75.8236); (25.20, 75.85) ]%Q.
Proof.
  apply (proj1 (proj2 (echoed_request_is_straight_line
    (MapComponent.launch [Scenario.depot; Scenario.pickup] MapComponent.initial)
    0 [Scenario.depot; Scenario.pickup]
    [ (75.8236, 25.1825); (75.85, 25.20) ]%Q [] eq_refl eq_refl))).
Defined.

(** X17.  The route effect sends one request on each run with a non-empty
    route and two or more waypoints, and nothing else ever sends one: over
    any sequence of effect runs and completions, the number of requests
    sent is the number of such runs (a completion never retries). *)
Theorem requests_issued (events : list MapComponent.Event)
    (s : MapComponent.State) :
  MapComponent.issued (MapComponent.run events s) =
  (MapComponent.issued s
   + length (filter (fun e => launches e = true) events))%nat.
Proof.
  revert s. induction events as [|e events IH]; intros s; [cbn; lia|].
  cbn [MapComponent.run foldl]. fold (MapComponent.run events (MapComponent.step s e)).
  rewrite IH, step_issued, filter_cons.
  destruct (launches e); cbn.
  - rewrite decide_True by done. cbn. lia.
  - rewrite decide_False by done. lia.
Qed.


(** X19.  [createPin] gives the green box pin ("#2ecc71", "fas fa-box")
    exactly for the type "pickup", the red flag pin ("#e74c3c",
    "fas fa-flag-checkered") exactly for "delivery", and the blue car pin
    ("#3b82f6", "fas fa-car") exactly for every other type. *)
Theorem createPin_variants (type : string) :
  (MapComponent.createPin type
   = {| MapComponent.pin_color := "#2ecc71";
        MapComponent.pin_icon := "fas fa-box" |}
   <-> type = "pickup") /\
  (MapComponent.createPin type
   = {| MapComponent.pin_color := "#e74c3c";
        MapComponent.pin_icon := "fas fa-flag-checkered" |}
   <-> type = "delivery") /\
  (MapComponent.createPin type
   = {| MapComponent.pin_color := "#3b82f6";
        MapComponent.pin_icon := "fas fa-car" |}
   <-> type ≠ "pickup" /\ type ≠ "delivery").
Proof.
  unfold MapComponent.createPin. cbn zeta.
  destruct (decide (type = "pickup")) as [-> | Hp].
  - cbn. split; [done|]. split; [split; discriminate|].
    split; [discriminate | intros [H _]; done].
  - destruct (decide (type = "delivery")) as [-> | Hd]; cbn.
    + split; [split; discriminate|]. split; [done|].
      split; [discriminate | intros [_ H]; done].
    + split; [split; [discriminate | done]|].
      split; [split; [discriminate | done]|]. done.
Qed.

(** X20.  However often [RouteArrows] is committed with new positions or
    unmounted, the map carries the layers it had before plus at most one
    arrow decorator: the one made from the positions of the last commit,
    when these are a non-empty list, and none after an unmount or a commit
    without positions. *)
Theorem arrows_single_decorator (m0 : MapComponent.LeafletMap)
    (events : list MapComponent.Lifecycle) :
  stamped m0 ->
  let a := MapComponent.arrowsRun events
             {| MapComponent.arrowsMap := m0; MapComponent.cleanup := None |} in
  match shown events with
  | Some positions =>
      exists d, MapComponent.cleanup a = Some d /\
                MapComponent.layers m0 !! d = None /\
                MapComponent.layers (MapComponent.arrowsMap a)
                = <[d := positions]> (MapComponent.layers m0)
  | None =>
      MapComponent.cleanup a = None /\
      MapComponent.layers (MapComponent.arrowsMap a) = MapComponent.layers m0
  end.
Proof.
  intros Hm0 a. destruct (arrows_invariant m0 events Hm0) as (_ & Hc & Hshown).
  fold a in Hc, Hshown.
  destruct (shown events) as [positions|].
  - destruct Hshown as (d & Hd & Hl). exists d. split; [done|]. split; [|done].
    rewrite Hd in Hc. destruct Hc as [Hb _].
    destruct (MapComponent.layers m0 !! d) eqn:E; [|done].
    assert (d < MapComponent.stamp m0)%nat by (apply Hm0; by eexists). lia.
  - by rewrite Hshown in Hc.
Qed.

Lemma arrows_single_decorator_witness :
  exists d,
    MapComponent.cleanup
      (MapComponent.arrowsRun
         [ MapComponent.Commit (Some (flipped Scenario.roadA));
           MapComponent.Commit (Some (flipped Scenario.roadB)) ]
         {| MapComponent.arrowsMap :=
              {| MapComponent.layers := ∅; MapComponent.stamp := 0 |};
            MapComponent.cleanup := None |}) = Some d /\
    (∅ : gmap nat (list MapComponent.LatLng)) !! d = None /\
    MapComponent.layers
      (MapComponent.arrowsMap
         (MapComponent.arrowsRun
            [ MapComponent.Commit (Some (flipped Scenario.roadA));
              MapComponent.Commit (Some (flipped Scenario.roadB)) ]
            {| MapComponent.arrowsMap :=
                 {| MapComponent.layers := ∅; MapComponent.stamp := 0 |};
               MapComponent.cleanup := None |}))
    = <[d := flipped Scenario.roadB]> ∅.
Proof.
  apply (arrows_single_decorator
           {| MapComponent.layers := ∅; MapComponent.stamp := 0 |}
           [ MapComponent.Commit (Some (flipped Scenario.roadA));
             MapComponent.Commit (Some (flipped Scenario.roadB)) ]).
  intros n [x Hx]. cbn in Hx. by rewrite lookup_empty in Hx.
Defined.

(** X21.  When a request fails by raising, the map is centred on the
    first waypoint of that request. *)
Theorem center_after_fallback (s : MapComponent.State) (request : nat)
    (w0 : Location) (waypoints : list Location)
    (response : Js.AxiosResult (option MapComponent.OsrmData)) :
  MapComponent.inflight s !! request = Some (w0 :: waypoints) ->
  routingRaises response ->
  MapComponent.center
    (MapComponent.routePath (MapComponent.settle request response s))
  = (lat w0, lon w0).
Proof.
  intros Hin HR.
  by rewrite (settle_routePath_raises request (w0 :: waypoints)).
Qed.

Lemma center_after_fallback_witness :
  MapComponent.center
    (MapComponent.routePath
       (MapComponent.settle 0 Js.Rejected
          (MapComponent.launch [Scenario.depot; Scenario.pickup]
             MapComponent.initial)))
  = (25.1825, 75.8236)%Q.
Proof.
  apply (center_after_fallback
           (MapComponent.launch [Scenario.depot; Scenario.pickup] MapComponent.initial)
           0 Scenario.depot [Scenario.pickup] Js.Rejected eq_refl eq_refl).
Defined.

(** X22.  Pressing "Fetch Live Orders" clears the drawn path, also when
    the fetch fails: the route handed to the map afterwards is null, and
    the route effect run on it empties [routePath] without sending a
    request. *)
Theorem fetch_clears_drawn_path (response : Js.AxiosResult App.Body)
    (s : App.State) (ms : MapComponent.State) :
  let s' := Js.exec (App.handleFetchLive response) s in
  let ms' := MapComponent.routeEffect (App.route s')
               (App.createLocationLookup (App.vehicle s') (App.orders s')) ms in
  MapComponent.routePath ms' = [] /\
  MapComponent.issued ms' = MapComponent.issued ms /\
  MapComponent.inflight ms' = MapComponent.inflight ms.
Proof.
  cbn zeta.
  destruct (handleFetchLive_cases response s)
    as [[_ ->] | [[_ ->] | (l & sorted & _ & _ & _ & _ & ->)]]; done.
Qed.

(** X23.  Every stop marker sits on the straight-line fallback path: its
    position is one of the points of the line through the waypoints
    extracted from the same route and lookup. *)
Theorem markers_on_fallback_path (route : list Stop)
    (locations : gmap string Location) (mk : MapComponent.Marker) :
  mk ∈ MapComponent.stopMarkers (Some route) locations ->
  MapComponent.position mk
    ∈ straightLine (MapComponent.extractWaypoints route locations).
Proof.
  unfold MapComponent.stopMarkers. intros (om & Hin & ->)%list_elem_of_omap.
  apply elem_of_lookup_imap in Hin as (idx & point & Hm & Hidx).
  symmetry in Hm. apply stopMarker_Some in Hm as (loc & Hloc & _ & ->).
  cbn [MapComponent.position]. unfold straightLine.
  change (map ?f ?l) with (f <$> l).
  apply (list_elem_of_fmap_2 (fun w => (lat w, lon w))).
  assert (Hw : loc ∈ omap (fun point =>
                  MapComponent.read locations (location_id point)) route).
  { apply list_elem_of_omap. exists point. split; [|done].
    by eapply list_elem_of_lookup_2. }
  unfold MapComponent.extractWaypoints.
  destruct (MapComponent.read locations "DEPOT"); [by right | done].
Qed.

Lemma markers_on_fallback_path_witness :
  (Number 25.20, Number 75.85)
    ∈ straightLine
        (MapComponent.extractWaypoints Scenario.stops Scenario.locations).
Proof.
  apply (markers_on_fallback_path Scenario.stops Scenario.locations
    {| MapComponent.key := 1; MapComponent.position := (25.20, 75.85)%Q;
       MapComponent.icon := MapComponent.createPin "pickup" |}).
  vm_compute. left.
Defined.
